(** * pymysqlreplication.event: binlog event decoders

    A shallow embedding of [pymysqlreplication/event.py] (Python 3 reading)
    and the properties of its decoders: byte accounting, checksum detection,
    GTID text, binlog file-name extraction, query-text decoding and the
    diagnostic dump. *)

From Stdlib Require Import ZArith List Strings.String Strings.Ascii Strings.Byte Bool Lia.
From Stdlib Require Import DecimalString DecimalZ DecimalPos.
Import ListNotations.
Local Open Scope string_scope.
Local Open Scope list_scope.
Local Open Scope Z_scope.

(** ** Python values used by the module *)

(** A Python [bytes] object. *)
Definition bytes := list byte.

(** A Python [str].  Text is kept as the string of its UTF-8 encoding, so a
    [str] made of ASCII characters is the Rocq string one would write. *)
Definition str := string.

(** The exceptions that the code of this module can meet. *)
Inductive exn : Type :=
| TruncatedPacket      (* raised by the packet: a read it cannot serve *)
| UnicodeDecodeError   (* bytes.decode: malformed input (a UnicodeError) *)
| LookupError          (* bytes.decode: unknown encoding name *)
| TypeError            (* bytes.decode: the encoding is None *)
| IndexError.          (* list index out of range *)

(** The value of a byte, 0 to 255. *)
Definition byte_value (b : byte) : Z := Z.of_N (Byte.to_N b).

(** [pymysql.util.int2byte]. *)
Definition int2byte (n : Z) : bytes :=
  match Byte.of_N (Z.to_N n) with
  | Some b => [b]
  | None => []
  end.

(** [struct.unpack('<B' | '<H' | '<I' | '<Q', data)[0]]: the little-endian
    unsigned value of [data]. *)
Fixpoint unpack_le (data : bytes) : Z :=
  match data with
  | [] => 0
  | b :: rest => byte_value b + 256 * unpack_le rest
  end.

(** [pymysql.util.byte2int], applied in this module to the one byte of a
    [read(1)]. *)
Definition byte2int (b : bytes) : Z := unpack_le b.

(** [struct.unpack('b', data)[0]]: one signed byte. *)
Definition unpack_b (data : bytes) : Z :=
  if unpack_le data <? 128 then unpack_le data else unpack_le data - 256.

(** [binascii.hexlify(data).decode('ascii')]: two lowercase hexadecimal
    digits per byte. *)
Definition hex_digit (n : Z) : ascii :=
  if n <? 10 then ascii_of_N (Z.to_N (48 + n))
  else ascii_of_N (Z.to_N (87 + n)).

Fixpoint hexlify (data : bytes) : str :=
  match data with
  | [] => EmptyString
  | b :: rest =>
      String (hex_digit (byte_value b / 16))
        (String (hex_digit (byte_value b mod 16)) (hexlify rest))
  end.

(** ['%d' % n]. *)
Definition format_d (n : Z) : str := NilZero.string_of_int (Z.to_int n).

(** ['%s' % b] for a bool and for an optional str. *)
Definition format_bool (b : bool) : str := if b then "True" else "False".

Definition format_opt_str (s : option str) : str :=
  match s with
  | Some t => t
  | None => "None"
  end.

(** ['%s' % b] for a bytes object: its [repr]. *)
Definition hex2 (n : Z) : str :=
  String (hex_digit (n / 16)) (String (hex_digit (n mod 16)) EmptyString).

Definition repr_quote (data : bytes) : byte :=
  if existsb (Byte.eqb x27) data && negb (existsb (Byte.eqb x22) data)
  then x22 else x27.

Definition repr_byte (quote c : byte) : str :=
  if Byte.eqb c quote || Byte.eqb c x5c then
    String (ascii_of_byte x5c) (String (ascii_of_byte c) EmptyString)
  else if Byte.eqb c x09 then "\t"
  else if Byte.eqb c x0a then "\n"
  else if Byte.eqb c x0d then "\r"
  else if (byte_value c <? 32) || (127 <=? byte_value c) then
    ("\x" ++ hex2 (byte_value c))%string
  else String (ascii_of_byte c) EmptyString.

Definition format_bytes (data : bytes) : str :=
  let q := String (ascii_of_byte (repr_quote data)) EmptyString in
  ("b" ++ q ++ String.concat EmptyString (map (repr_byte (repr_quote data)) data)
   ++ q)%string.

(** Slices [s[:n]] and [s[n:]] of a str. *)
Definition str_to (n : nat) (s : str) : str := substring 0 n s.

Fixpoint str_from (n : nat) (s : str) : str :=
  match n, s with
  | O, _ => s
  | S m, EmptyString => EmptyString
  | S m, String _ t => str_from m t
  end.

Definition str_slice (i j : nat) (s : str) : str := str_to (j - i) (str_from i s).

(** ** Strict UTF-8, as [bytes.decode('utf-8')] checks it *)

Definition in_range (lo hi n : Z) : bool := (lo <=? n) && (n <=? hi).

Definition is_cont (b : byte) : bool := in_range 128 191 (byte_value b).

Fixpoint valid_utf8 (data : bytes) : bool :=
  match data with
  | [] => true
  | b0 :: r0 =>
      let n0 := byte_value b0 in
      if n0 <? 128 then valid_utf8 r0
      else if in_range 194 223 n0 then
        match r0 with
        | b1 :: r1 => is_cont b1 && valid_utf8 r1
        | _ => false
        end
      else if in_range 224 239 n0 then
        match r0 with
        | b1 :: b2 :: r2 =>
            in_range (if n0 =? 224 then 160 else 128)
                     (if n0 =? 237 then 159 else 191) (byte_value b1)
            && is_cont b2 && valid_utf8 r2
        | _ => false
        end
      else if in_range 240 244 n0 then
        match r0 with
        | b1 :: b2 :: b3 :: r3 =>
            in_range (if n0 =? 240 then 144 else 128)
                     (if n0 =? 244 then 143 else 191) (byte_value b1)
            && is_cont b2 && is_cont b3 && valid_utf8 r3
        | _ => false
        end
      else false
  end.

(** [data.decode()] and [data.decode('utf-8')]. *)
Definition decode_utf8 (data : bytes) : exn + str :=
  if valid_utf8 data then inr (string_of_list_byte data)
  else inl UnicodeDecodeError.

(** [data.rstrip(b'\x00')]. *)
Fixpoint rstrip_nul (data : bytes) : bytes :=
  match data with
  | [] => []
  | b :: rest =>
      match rstrip_nul rest with
      | [] => if Byte.eqb b x00 then [] else [b]
      | rest' => b :: rest'
      end
  end.

(** [data.decode(encoding)] for the encoding that the detector suggests.
    [codecs] is Python's codec registry: the decoder registered under a name,
    if there is one; a decoder answers [None] on malformed input. *)
Definition codec_registry := str -> option (bytes -> option str).

Definition bytes_decode (codecs : codec_registry) (data : bytes)
    (encoding : option str) : exn + str :=
  match encoding with
  | None => inl TypeError
  | Some name =>
      match codecs name with
      | None => inl LookupError
      | Some decoder =>
          match decoder data with
          | Some s => inr s
          | None => inl UnicodeDecodeError
          end
      end
  end.

(** ** The pattern [b'.+\.\d{6}'] of [RotateEvent] *)

(** [.] of a bytes pattern: any byte but a line feed. *)
Definition re_any (b : byte) : bool := negb (Byte.eqb b x0a).

(** [\d] of a bytes pattern: an ASCII digit. *)
Definition re_digit (b : byte) : bool := in_range 48 57 (byte_value b).

(** [\.\d{6}] at the head of [s]. *)
Definition re_suffix (s : bytes) : bool :=
  match s with
  | d :: rest =>
      Byte.eqb d "."%byte && (6 <=? List.length rest)%nat
      && forallb re_digit (firstn 6 rest)
  | [] => false
  end.

(** [.*\.\d{6}] at the head of [s], the star greedy: the engine first lets
    the star take one more byte and only then tries the suffix here.  The
    result is the number of bytes matched. *)
Fixpoint re_rest (s : bytes) : option nat :=
  match s with
  | [] => None
  | c :: r =>
      match (if re_any c then re_rest r else None) with
      | Some n => Some (S n)
      | None => if re_suffix s then Some 7%nat else None
      end
  end.

(** [.+\.\d{6}] at the head of [s]. *)
Definition re_match (s : bytes) : option nat :=
  match s with
  | c :: r => if re_any c then option_map S (re_rest r) else None
  | [] => None
  end.

(** [re.findall(b'.+\.\d{6}', s)]: the matches from left to right, each
    search resuming where the previous match ended. *)
Fixpoint findall_from (fuel : nat) (s : bytes) : list bytes :=
  match fuel with
  | O => []
  | S fuel' =>
      match re_match s with
      | Some n => firstn n s :: findall_from fuel' (skipn n s)
      | None =>
          match s with
          | [] => []
          | _ :: r => findall_from fuel' r
          end
      end
  end.

Definition findall (s : bytes) : list bytes := findall_from (S (List.length s)) s.

(** ** The packet *)

(** Modelled from the spec: the packet wrapper class (the spec's ByteCursor)
    is not part of this module.  A packet is the bytes of one event that
    are still to be consumed, the count of those consumed, and the header
    fields that the outer header reader filled in. *)
Module Packet.

Record t : Type := mk {
  buffer : bytes;       (* the bytes not yet consumed *)
  read_bytes : Z;       (* bytes consumed so far *)
  event_type : Z;
  timestamp : Z;
  log_pos : Z;
  event_size : Z        (* declared total size, header included *)
}.

Definition consume (n : nat) (p : t) : t :=
  mk (skipn n (buffer p)) (read_bytes p + Z.of_nat n)
     (event_type p) (timestamp p) (log_pos p) (event_size p).

End Packet.

(** Code that reads from the packet: it either raises or returns a value and
    the packet as it left it. *)
Definition M (A : Type) : Type := Packet.t -> exn + (A * Packet.t).

Definition ret {A} (a : A) : M A := fun p => inr (a, p).

Definition bind {A B} (m : M A) (k : A -> M B) : M B :=
  fun p =>
    match m p with
    | inl e => inl e
    | inr (a, p') => k a p'
    end.

Notation "x <- m ;; k" := (bind m (fun x => k))
  (at level 61, m at next level, right associativity).

(** A pure computation that may raise. *)
Definition lift {A} (r : exn + A) : M A :=
  fun p =>
    match r with
    | inl e => inl e
    | inr a => inr (a, p)
    end.

(** An attribute of the packet. *)
Definition attr {A} (f : Packet.t -> A) : M A := fun p => inr (f p, p).

(** Modelled from the spec: [packet.read(n)] of the packet wrapper class,
    which is not part of this module.  It returns exactly [n] bytes and
    counts them, or fails: when fewer than [n] bytes remain, and for a
    negative [n], since no bytes object has that length. *)
Definition read (n : Z) : M bytes :=
  fun p =>
    if (0 <=? n) && (n <=? Z.of_nat (List.length (Packet.buffer p))) then
      inr (firstn (Z.to_nat n) (Packet.buffer p), Packet.consume (Z.to_nat n) p)
    else inl TruncatedPacket.

(** Modelled from the spec: [packet.advance(n)] skips [n] bytes without
    returning them, and [packet.read_uint8/16/32()] read an unsigned
    little-endian integer of 1, 2 and 4 bytes. *)
Definition advance (n : Z) : M unit := _ <- read n ;; ret tt.

Definition read_uint8 : M Z := b <- read 1 ;; ret (unpack_le b).
Definition read_uint16 : M Z := b <- read 2 ;; ret (unpack_le b).
Definition read_uint32 : M Z := b <- read 4 ;; ret (unpack_le b).

(** ** The events *)

(** A reference to an object owned elsewhere (table map, control
    connection); the module never looks inside. *)
Definition object_ref := Z.

(** The keyword arguments of an event constructor. *)
Record kwargs : Type := mk_kwargs {
  only_tables : option (list str);
  ignored_tables : option (list str);
  only_schemas : option (list str);
  ignored_schemas : option (list str);
  freeze_schema : bool;
  fail_on_table_metadata_unavailable : bool
}.

Definition default_kwargs : kwargs :=
  mk_kwargs None None None None false false.

Module BinLogEvent.

(** The slots of the base class; [packet] is the packet the code reads
    from, which the monad carries. *)
Record t : Type := mk {
  table_map : object_ref;
  event_type : Z;
  timestamp : Z;
  event_size : Z;
  _ctl_connection : object_ref;
  _fail_on_table_metadata_unavailable : bool;
  _processed : bool;
  complete : bool
}.

Definition __init__ (event_size : Z) (table_map ctl_connection : object_ref)
    (kw : kwargs) : M t :=
  ty <- attr Packet.event_type ;;
  ts <- attr Packet.timestamp ;;
  ret {| table_map := table_map;
         event_type := ty;
         timestamp := ts;
         event_size := event_size;
         _ctl_connection := ctl_connection;
         _fail_on_table_metadata_unavailable :=
           fail_on_table_metadata_unavailable kw;
         _processed := true;
         complete := true |}.

Definition _read_table_id : M Z :=
  b <- read 6 ;;
  ret (unpack_le (b ++ int2byte 0 ++ int2byte 0)).

(** [dump]: the lines printed, [body] being what [_dump] prints.
    [isoformat] is [datetime.fromtimestamp(ts).isoformat()], which depends
    on the local time zone. *)
Definition dump (isoformat : Z -> str) (class_name : str) (self : t)
    (body : list str) (p : Packet.t) : list str :=
  [ ("=== " ++ class_name ++ " ===")%string;
    ("Date: " ++ isoformat (timestamp self))%string;
    ("Log position: " ++ format_d (Packet.log_pos p))%string;
    ("Event size: " ++ format_d (event_size self))%string;
    ("Read bytes: " ++ format_d (Packet.read_bytes p))%string ]
  ++ body ++ [EmptyString].

Definition _dump : list str := [].

End BinLogEvent.

(** Exceptions at the level of expressions. *)
Definition ebind {A B} (r : exn + A) (k : A -> exn + B) : exn + B :=
  match r with
  | inl e => inl e
  | inr a => k a
  end.

(** [try: body  except <caught>: handler]. *)
Definition try_except {A} (body : exn + A) (caught : exn -> bool)
    (handler : exn + A) : exn + A :=
  match body with
  | inl e => if caught e then handler else inl e
  | inr a => inr a
  end.

Definition is_UnicodeError (e : exn) : bool :=
  match e with UnicodeDecodeError => true | _ => false end.

Definition is_TypeError_or_UnicodeError (e : exn) : bool :=
  match e with TypeError | UnicodeDecodeError => true | _ => false end.

Definition is_IndexError (e : exn) : bool :=
  match e with IndexError => true | _ => false end.

(** [l[0]]. *)
Definition getitem0 {A} (l : list A) : exn + A :=
  match l with
  | a :: _ => inr a
  | [] => inl IndexError
  end.

Module GtidEvent.

Record t : Type := mk {
  base : BinLogEvent.t;
  commit_flag : bool;
  sid : bytes;
  gno : Z
}.

Definition __init__ (event_size : Z) (table_map ctl_connection : object_ref)
    (kw : kwargs) : M t :=
  super <- BinLogEvent.__init__ event_size table_map ctl_connection kw ;;
  b <- read 1 ;;
  sid <- read 16 ;;
  g <- read 8 ;;
  ret (mk super (byte2int b =? 1) sid (unpack_le g)).

Definition gtid (self : t) : str :=
  let nibbles := hexlify (sid self) in
  (str_to 8 nibbles ++ "-" ++ str_slice 8 12 nibbles ++ "-"
   ++ str_slice 12 16 nibbles ++ "-" ++ str_slice 16 20 nibbles ++ "-"
   ++ str_from 20 nibbles ++ ":" ++ format_d (gno self))%string.

Definition _dump (self : t) : list str :=
  [ ("Commit: " ++ format_bool (commit_flag self))%string;
    ("GTID_NEXT: " ++ gtid self)%string ].

(** ['<GtidEvent "%s">' % self.gtid]. *)
Definition __repr__ (self : t) : str :=
  ("<GtidEvent " ++ String (ascii_of_byte x22) (gtid self)
   ++ String (ascii_of_byte x22) ">")%string.

End GtidEvent.

Module RotateEvent.

Record t : Type := mk {
  base : BinLogEvent.t;
  position : Z;
  next_binlog : option str
}.

Definition __init__ (event_size : Z) (table_map ctl_connection : object_ref)
    (kw : kwargs) : M t :=
  super <- BinLogEvent.__init__ event_size table_map ctl_connection kw ;;
  b <- read 8 ;;
  rest_of_event_data <- read (event_size - 8) ;;
  next <- lift
    (try_except
       (ebind (getitem0 (findall rest_of_event_data)) (fun m =>
        ebind (decode_utf8 m) (fun s => inr (Some s))))
       is_IndexError
       (inr None)) ;;
  ret (mk super (unpack_le b) next).

Definition dump (self : t) : list str :=
  [ "=== RotateEvent ===";
    ("Position: " ++ format_d (position self))%string;
    ("Next binlog file: " ++ format_opt_str (next_binlog self))%string;
    EmptyString ].

End RotateEvent.

Module FormatDescriptionEvent.

Record t : Type := mk {
  base : BinLogEvent.t;
  binlog_version : Z;
  server_version : str;
  has_checksum : bool
}.

(** [is_checksum_supported] is [utils.is_checksum_supported], defined
    outside this module. *)
Definition __init__ (is_checksum_supported : str -> bool)
    (event_size : Z) (table_map ctl_connection : object_ref)
    (kw : kwargs) : M t :=
  super <- BinLogEvent.__init__ event_size table_map ctl_connection kw ;;
  b <- read 2 ;;
  v <- read 50 ;;
  server_version <- lift (decode_utf8 (rstrip_nul v)) ;;
  if is_checksum_supported server_version then
    packet_event_size <- attr Packet.event_size ;;
    let event_size_without_header := packet_event_size - 19 in
    _ <- read ((event_size_without_header - 2 - 50) - 5) ;;
    a <- read 1 ;;
    ret (mk super (unpack_le b) server_version (unpack_b a =? 1))
  else
    ret (mk super (unpack_le b) server_version false).

Definition dump (self : t) : list str :=
  [ "=== FormatDescriptionEvent ===";
    ("Binlog Version: " ++ format_d (binlog_version self))%string;
    ("Server Version: " ++ server_version self)%string;
    EmptyString ].

End FormatDescriptionEvent.

Module XidEvent.

Record t : Type := mk {
  base : BinLogEvent.t;
  xid : Z
}.

Definition __init__ (event_size : Z) (table_map ctl_connection : object_ref)
    (kw : kwargs) : M t :=
  super <- BinLogEvent.__init__ event_size table_map ctl_connection kw ;;
  b <- read 8 ;;
  ret (mk super (unpack_le b)).

Definition _dump (self : t) : list str :=
  BinLogEvent._dump
  ++ [ ("Transaction ID: " ++ format_d (xid self))%string ].

End XidEvent.

Module HeartbeatLogEvent.

Record t : Type := mk {
  base : BinLogEvent.t;
  ident : str
}.

Definition __init__ (event_size : Z) (table_map ctl_connection : object_ref)
    (kw : kwargs) : M t :=
  super <- BinLogEvent.__init__ event_size table_map ctl_connection kw ;;
  b <- read event_size ;;
  ident <- lift (decode_utf8 b) ;;
  ret (mk super ident).

Definition _dump (self : t) : list str :=
  BinLogEvent._dump ++ [ ("Current binlog: " ++ ident self)%string ].

End HeartbeatLogEvent.

(** The value of [QueryEvent.query]: a str, or the bytes as they came. *)
Inductive str_or_bytes : Type :=
| Str (s : str)
| Bytes (b : bytes).

Definition format_str_or_bytes (v : str_or_bytes) : str :=
  match v with
  | Str s => s
  | Bytes b => format_bytes b
  end.

Module QueryEvent.

Record t : Type := mk {
  base : BinLogEvent.t;
  slave_proxy_id : Z;
  execution_time : Z;
  schema_length : Z;
  error_code : Z;
  status_vars_length : Z;
  status_vars : bytes;
  schema : bytes;
  query : str_or_bytes
}.

(** [detect] is [chardet.detect(query)['encoding']]. *)
Definition _decode_query (detect : bytes -> option str)
    (codecs : codec_registry) (query : bytes) : exn + str_or_bytes :=
  match query with
  | [] => inr (Bytes query)
  | _ =>
      try_except
        (ebind (decode_utf8 query) (fun s => inr (Str s)))
        is_UnicodeError
        (try_except
           (let encoding := detect query in
            ebind (bytes_decode codecs query encoding) (fun s => inr (Str s)))
           is_TypeError_or_UnicodeError
           (inr (Bytes query)))
  end.

Definition __init__ (detect : bytes -> option str) (codecs : codec_registry)
    (event_size : Z) (table_map ctl_connection : object_ref)
    (kw : kwargs) : M t :=
  super <- BinLogEvent.__init__ event_size table_map ctl_connection kw ;;
  slave_proxy_id <- read_uint32 ;;
  execution_time <- read_uint32 ;;
  b <- read 1 ;;
  let schema_length := byte2int b in
  error_code <- read_uint16 ;;
  status_vars_length <- read_uint16 ;;
  status_vars <- read status_vars_length ;;
  schema <- read schema_length ;;
  _ <- advance 1 ;;
  query <- read (event_size - 13 - status_vars_length - schema_length - 1) ;;
  query <- lift (_decode_query detect codecs query) ;;
  ret (mk super slave_proxy_id execution_time schema_length error_code
          status_vars_length status_vars schema query).

Definition _dump (self : t) : list str :=
  BinLogEvent._dump
  ++ [ ("Schema: " ++ format_bytes (schema self))%string;
       ("Execution time: " ++ format_d (execution_time self))%string;
       ("Query: " ++ format_str_or_bytes (query self))%string ].

End QueryEvent.

Module BeginLoadQueryEvent.

Record t : Type := mk {
  base : BinLogEvent.t;
  file_id : Z;
  block_data : bytes
}.

Definition __init__ (event_size : Z) (table_map ctl_connection : object_ref)
    (kw : kwargs) : M t :=
  super <- BinLogEvent.__init__ event_size table_map ctl_connection kw ;;
  file_id <- read_uint32 ;;
  block_data <- read (event_size - 4) ;;
  ret (mk super file_id block_data).

Definition _dump (self : t) : list str :=
  BinLogEvent._dump
  ++ [ ("File id: " ++ format_d (file_id self))%string;
       ("Block data: " ++ format_bytes (block_data self))%string ].

End BeginLoadQueryEvent.

Module ExecuteLoadQueryEvent.

Record t : Type := mk {
  base : BinLogEvent.t;
  slave_proxy_id : Z;
  execution_time : Z;
  schema_length : Z;
  error_code : Z;
  status_vars_length : Z;
  file_id : Z;
  start_pos : Z;
  end_pos : Z;
  dup_handling_flags : Z
}.

Definition __init__ (event_size : Z) (table_map ctl_connection : object_ref)
    (kw : kwargs) : M t :=
  super <- BinLogEvent.__init__ event_size table_map ctl_connection kw ;;
  slave_proxy_id <- read_uint32 ;;
  execution_time <- read_uint32 ;;
  schema_length <- read_uint8 ;;
  error_code <- read_uint16 ;;
  status_vars_length <- read_uint16 ;;
  file_id <- read_uint32 ;;
  start_pos <- read_uint32 ;;
  end_pos <- read_uint32 ;;
  dup_handling_flags <- read_uint8 ;;
  ret (mk super slave_proxy_id execution_time schema_length error_code
          status_vars_length file_id start_pos end_pos dup_handling_flags).

Definition _dump (self : t) : list str :=
  BinLogEvent._dump
  ++ [ ("Slave proxy id: " ++ format_d (slave_proxy_id self))%string;
       ("Execution time: " ++ format_d (execution_time self))%string;
       ("Schema length: " ++ format_d (schema_length self))%string;
       ("Error code: " ++ format_d (error_code self))%string;
       ("Status vars length: " ++ format_d (status_vars_length self))%string;
       ("File id: " ++ format_d (file_id self))%string;
       ("Start pos: " ++ format_d (start_pos self))%string;
       ("End pos: " ++ format_d (end_pos self))%string;
       ("Dup handling flags: " ++ format_d (dup_handling_flags self))%string ].

End ExecuteLoadQueryEvent.

Module IntvarEvent.

Record t : Type := mk {
  base : BinLogEvent.t;
  type : Z;
  value : Z
}.

Definition __init__ (event_size : Z) (table_map ctl_connection : object_ref)
    (kw : kwargs) : M t :=
  super <- BinLogEvent.__init__ event_size table_map ctl_connection kw ;;
  type <- read_uint8 ;;
  value <- read_uint32 ;;
  ret (mk super type value).

Definition _dump (self : t) : list str :=
  BinLogEvent._dump
  ++ [ ("type: " ++ format_d (type self))%string;
       ("Value: " ++ format_d (value self))%string ].

End IntvarEvent.

Module NotImplementedEvent.

Definition __init__ (event_size : Z) (table_map ctl_connection : object_ref)
    (kw : kwargs) : M BinLogEvent.t :=
  super <- BinLogEvent.__init__ event_size table_map ctl_connection kw ;;
  _ <- advance event_size ;;
  ret super.

End NotImplementedEvent.

(** ** The classes of the module, and an event of any of them *)

Inductive event_class : Type :=
| GtidEvent_class
| RotateEvent_class
| FormatDescriptionEvent_class
| StopEvent_class
| XidEvent_class
| HeartbeatLogEvent_class
| QueryEvent_class
| BeginLoadQueryEvent_class
| ExecuteLoadQueryEvent_class
| IntvarEvent_class
| NotImplementedEvent_class.

Inductive event : Type :=
| Gtid (e : GtidEvent.t)
| Rotate (e : RotateEvent.t)
| FormatDescription (e : FormatDescriptionEvent.t)
| Stop (e : BinLogEvent.t)
| Xid (e : XidEvent.t)
| HeartbeatLog (e : HeartbeatLogEvent.t)
| Query (e : QueryEvent.t)
| BeginLoadQuery (e : BeginLoadQueryEvent.t)
| ExecuteLoadQuery (e : ExecuteLoadQueryEvent.t)
| Intvar (e : IntvarEvent.t)
| NotImplemented (e : BinLogEvent.t).

(** What the module takes from outside: the encoding detector, Python's
    codec registry, [utils.is_checksum_supported], and the local-time
    ISO-8601 rendering of a timestamp. *)
Record runtime : Type := mk_runtime {
  chardet_detect : bytes -> option str;
  codecs : codec_registry;
  is_checksum_supported : str -> bool;
  isoformat : Z -> str
}.

(** [event_class(from_packet, event_size, table_map, ctl_connection, **kw)]. *)
Definition construct (rt : runtime) (c : event_class) (event_size : Z)
    (table_map ctl_connection : object_ref) (kw : kwargs) : M event :=
  match c with
  | GtidEvent_class =>
      e <- GtidEvent.__init__ event_size table_map ctl_connection kw ;;
      ret (Gtid e)
  | RotateEvent_class =>
      e <- RotateEvent.__init__ event_size table_map ctl_connection kw ;;
      ret (Rotate e)
  | FormatDescriptionEvent_class =>
      e <- FormatDescriptionEvent.__init__ (is_checksum_supported rt)
             event_size table_map ctl_connection kw ;;
      ret (FormatDescription e)
  | StopEvent_class =>
      e <- BinLogEvent.__init__ event_size table_map ctl_connection kw ;;
      ret (Stop e)
  | XidEvent_class =>
      e <- XidEvent.__init__ event_size table_map ctl_connection kw ;;
      ret (Xid e)
  | HeartbeatLogEvent_class =>
      e <- HeartbeatLogEvent.__init__ event_size table_map ctl_connection kw ;;
      ret (HeartbeatLog e)
  | QueryEvent_class =>
      e <- QueryEvent.__init__ (chardet_detect rt) (codecs rt)
             event_size table_map ctl_connection kw ;;
      ret (Query e)
  | BeginLoadQueryEvent_class =>
      e <- BeginLoadQueryEvent.__init__ event_size table_map ctl_connection kw ;;
      ret (BeginLoadQuery e)
  | ExecuteLoadQueryEvent_class =>
      e <- ExecuteLoadQueryEvent.__init__ event_size table_map ctl_connection kw ;;
      ret (ExecuteLoadQuery e)
  | IntvarEvent_class =>
      e <- IntvarEvent.__init__ event_size table_map ctl_connection kw ;;
      ret (Intvar e)
  | NotImplementedEvent_class =>
      e <- NotImplementedEvent.__init__ event_size table_map ctl_connection kw ;;
      ret (NotImplemented e)
  end.

(** The base-class part of an event. *)
Definition base (ev : event) : BinLogEvent.t :=
  match ev with
  | Gtid e => GtidEvent.base e
  | Rotate e => RotateEvent.base e
  | FormatDescription e => FormatDescriptionEvent.base e
  | Stop e => e
  | Xid e => XidEvent.base e
  | HeartbeatLog e => HeartbeatLogEvent.base e
  | Query e => QueryEvent.base e
  | BeginLoadQuery e => BeginLoadQueryEvent.base e
  | ExecuteLoadQuery e => ExecuteLoadQueryEvent.base e
  | Intvar e => IntvarEvent.base e
  | NotImplemented e => e
  end.

Definition class_of (ev : event) : event_class :=
  match ev with
  | Gtid _ => GtidEvent_class
  | Rotate _ => RotateEvent_class
  | FormatDescription _ => FormatDescriptionEvent_class
  | Stop _ => StopEvent_class
  | Xid _ => XidEvent_class
  | HeartbeatLog _ => HeartbeatLogEvent_class
  | Query _ => QueryEvent_class
  | BeginLoadQuery _ => BeginLoadQueryEvent_class
  | ExecuteLoadQuery _ => ExecuteLoadQueryEvent_class
  | Intvar _ => IntvarEvent_class
  | NotImplemented _ => NotImplementedEvent_class
  end.

Definition class_name (ev : event) : str :=
  match ev with
  | Gtid _ => "GtidEvent"
  | Rotate _ => "RotateEvent"
  | FormatDescription _ => "FormatDescriptionEvent"
  | Stop _ => "StopEvent"
  | Xid _ => "XidEvent"
  | HeartbeatLog _ => "HeartbeatLogEvent"
  | Query _ => "QueryEvent"
  | BeginLoadQuery _ => "BeginLoadQueryEvent"
  | ExecuteLoadQuery _ => "ExecuteLoadQueryEvent"
  | Intvar _ => "IntvarEvent"
  | NotImplemented _ => "NotImplementedEvent"
  end.

(** [self._dump()], resolved by the class of the event. *)
Definition _dump (ev : event) : list str :=
  match ev with
  | Gtid e => GtidEvent._dump e
  | Xid e => XidEvent._dump e
  | HeartbeatLog e => HeartbeatLogEvent._dump e
  | Query e => QueryEvent._dump e
  | BeginLoadQuery e => BeginLoadQueryEvent._dump e
  | ExecuteLoadQuery e => ExecuteLoadQueryEvent._dump e
  | Intvar e => IntvarEvent._dump e
  | Rotate _ | FormatDescription _ | Stop _ | NotImplemented _ =>
      BinLogEvent._dump
  end.

(** [ev.dump()]: the lines it prints, [p] being the packet of the event as
    it is when [dump] is called. *)
Definition dump (rt : runtime) (ev : event) (p : Packet.t) : list str :=
  match ev with
  | Rotate e => RotateEvent.dump e
  | FormatDescription e => FormatDescriptionEvent.dump e
  | _ => BinLogEvent.dump (isoformat rt) (class_name ev) (base ev) (_dump ev) p
  end.

(** ** What the specification says, in its own words *)

(** The hexadecimal text cut into groups of the given lengths. *)
Fixpoint split_groups (lens : list nat) (s : str) : list str :=
  match lens with
  | [] => []
  | n :: rest => str_to n s :: split_groups rest (str_from n s)
  end.

(** The GTID text of the specification: the hexadecimal digits of the
    source id in hyphen-joined groups of 8, 4, 4, 4 and 12, a colon, the
    transaction number in decimal. *)
Definition gtid_text (source_id : bytes) (transaction_no : Z) : str :=
  (String.concat "-" (split_groups [8; 4; 4; 4; 12]%nat (hexlify source_id))
   ++ ":" ++ format_d transaction_no)%string.

Definition is_lower_hex (c : ascii) : bool :=
  let n := Z.of_N (N_of_ascii c) in in_range 48 57 n || in_range 97 102 n.

(** One or more characters, a literal dot, then six digits, every byte
    counting as a character. *)
Definition file_name_shape (m : bytes) : Prop :=
  exists pre ds,
    m = pre ++ "."%byte :: ds /\ pre <> [] /\
    List.length ds = 6%nat /\ Forall (fun d => re_digit d = true) ds.

(** The same with the characters of the pattern: no line feed before the
    dot. *)
Definition re_matches (m : bytes) : Prop :=
  exists pre ds,
    m = pre ++ "."%byte :: ds /\ pre <> [] /\
    Forall (fun c => re_any c = true) pre /\
    List.length ds = 6%nat /\ Forall (fun d => re_digit d = true) ds.

(** [m] occurs in [t] after [n] bytes. *)
Definition occurs_at (n : nat) (m t : bytes) : Prop :=
  exists l r, t = l ++ m ++ r /\ List.length l = n.

(** The bytes that a successful decode consumes, class by class. *)
Definition bytes_consumed (rt : runtime) (ev : event) (p : Packet.t) : Z :=
  match ev with
  | Gtid _ => 25
  | Xid _ => 8
  | Intvar _ => 5
  | ExecuteLoadQuery _ => 26
  | Stop _ => 0
  | FormatDescription e =>
      if is_checksum_supported rt (FormatDescriptionEvent.server_version e)
      then (Packet.event_size p - 19) - 4
      else 52
  | Rotate _ | HeartbeatLog _ | Query _ | BeginLoadQuery _
  | NotImplemented _ => BinLogEvent.event_size (base ev)
  end.

(** An event with the stored flag replaced: what is left is what was
    decoded. *)
Definition set_flag (f : bool) (b : BinLogEvent.t) : BinLogEvent.t :=
  BinLogEvent.mk (BinLogEvent.table_map b) (BinLogEvent.event_type b)
    (BinLogEvent.timestamp b) (BinLogEvent.event_size b)
    (BinLogEvent._ctl_connection b) f
    (BinLogEvent._processed b) (BinLogEvent.complete b).

Definition with_flag (f : bool) (ev : event) : event :=
  match ev with
  | Gtid (GtidEvent.mk b c s g) => Gtid (GtidEvent.mk (set_flag f b) c s g)
  | Rotate (RotateEvent.mk b x n) => Rotate (RotateEvent.mk (set_flag f b) x n)
  | FormatDescription (FormatDescriptionEvent.mk b v s h) =>
      FormatDescription (FormatDescriptionEvent.mk (set_flag f b) v s h)
  | Stop b => Stop (set_flag f b)
  | Xid (XidEvent.mk b x) => Xid (XidEvent.mk (set_flag f b) x)
  | HeartbeatLog (HeartbeatLogEvent.mk b i) =>
      HeartbeatLog (HeartbeatLogEvent.mk (set_flag f b) i)
  | Query (QueryEvent.mk b a1 a2 a3 a4 a5 a6 a7 a8) =>
      Query (QueryEvent.mk (set_flag f b) a1 a2 a3 a4 a5 a6 a7 a8)
  | BeginLoadQuery (BeginLoadQueryEvent.mk b i d) =>
      BeginLoadQuery (BeginLoadQueryEvent.mk (set_flag f b) i d)
  | ExecuteLoadQuery (ExecuteLoadQueryEvent.mk b a1 a2 a3 a4 a5 a6 a7 a8 a9) =>
      ExecuteLoadQuery
        (ExecuteLoadQueryEvent.mk (set_flag f b) a1 a2 a3 a4 a5 a6 a7 a8 a9)
  | Intvar (IntvarEvent.mk b t v) => Intvar (IntvarEvent.mk (set_flag f b) t v)
  | NotImplemented b => NotImplemented (set_flag f b)
  end.

Definition map_event {A} (f : event -> event) (r : exn + (event * A))
    : exn + (event * A) :=
  match r with
  | inl e => inl e
  | inr (ev, a) => inr (f ev, a)
  end.

(** Where the fields of a FormatDescriptionEvent lie in the packet: the
    bytes of the server version, the count skipped before the algorithm
    byte, and that byte. *)
Definition version_bytes (p : Packet.t) : bytes :=
  rstrip_nul (firstn 50 (skipn 2 (Packet.buffer p))).

Definition skipped (p : Packet.t) : Z := (Packet.event_size p - 19) - 2 - 50 - 5.

Definition algorithm_byte (p : Packet.t) : bytes :=
  firstn 1 (skipn (2 + 50 + Z.to_nat (skipped p)) (Packet.buffer p)).

(** Where the two length fields of a QueryEvent lie in the packet. *)
Definition schema_length_of (p : Packet.t) : Z :=
  byte2int (firstn 1 (skipn 8 (Packet.buffer p))).

Definition status_vars_length_of (p : Packet.t) : Z :=
  unpack_le (firstn 2 (skipn 11 (Packet.buffer p))).

(** A match of [.*\.\d{6}] at the head of [s] whose star takes [k] bytes,
    and a match of the whole pattern at the head of [s] that is [n] bytes
    long. *)
Definition rest_shape (s : bytes) (k : nat) : Prop :=
  exists pre ds r,
    s = pre ++ "."%byte :: ds ++ r /\
    Forall (fun c => re_any c = true) pre /\
    List.length ds = 6%nat /\ Forall (fun d => re_digit d = true) ds /\
    List.length pre = k.

Definition match_shape (s : bytes) (n : nat) : Prop :=
  exists m r, s = m ++ r /\ re_matches m /\ List.length m = n.

(** The trailer of a RotateEvent: the [event_size - 8] bytes after the
    position. *)
Definition trailer_of (es : Z) (p : Packet.t) : bytes :=
  firstn (Z.to_nat (es - 8)) (skipn 8 (Packet.buffer p)).

(** A line of the form [Key: value], and a way to find the key. *)
Definition key_value_line (line : str) : Prop :=
  exists key value, line = (key ++ ": " ++ value)%string.

Fixpoint split_key (line : str) : option (str * str) :=
  match line with
  | EmptyString => None
  | String c rest =>
      let here :=
        if Ascii.eqb c ":" then
          match rest with
          | String d value => if Ascii.eqb d " " then Some value else None
          | EmptyString => None
          end
        else None in
      match here with
      | Some value => Some (EmptyString, value)
      | None =>
          option_map (fun kv => (String c (fst kv), snd kv)) (split_key rest)
      end
  end.

(** An unsigned integer of [bits] bits. *)
Definition uint (bits : Z) (v : Z) : Prop := 0 <= v < 2 ^ bits.

(** The integer fields of an event lie in the range of the width they were
    read with, and the byte fields have the length that was read. *)
Definition fields_in_range (ev : event) : Prop :=
  match ev with
  | Gtid e =>
      List.length (GtidEvent.sid e) = 16%nat /\ uint 64 (GtidEvent.gno e)
  | Rotate e => uint 64 (RotateEvent.position e)
  | FormatDescription e => uint 16 (FormatDescriptionEvent.binlog_version e)
  | Xid e => uint 64 (XidEvent.xid e)
  | Query e =>
      uint 32 (QueryEvent.slave_proxy_id e)
      /\ uint 32 (QueryEvent.execution_time e)
      /\ uint 8 (QueryEvent.schema_length e)
      /\ uint 16 (QueryEvent.error_code e)
      /\ uint 16 (QueryEvent.status_vars_length e)
      /\ Z.of_nat (List.length (QueryEvent.status_vars e))
         = QueryEvent.status_vars_length e
      /\ Z.of_nat (List.length (QueryEvent.schema e))
         = QueryEvent.schema_length e
  | BeginLoadQuery e =>
      uint 32 (BeginLoadQueryEvent.file_id e)
      /\ Z.of_nat (List.length (BeginLoadQueryEvent.block_data e)) + 4
         = BinLogEvent.event_size (BeginLoadQueryEvent.base e)
  | ExecuteLoadQuery e =>
      uint 32 (ExecuteLoadQueryEvent.slave_proxy_id e)
      /\ uint 32 (ExecuteLoadQueryEvent.execution_time e)
      /\ uint 8 (ExecuteLoadQueryEvent.schema_length e)
      /\ uint 16 (ExecuteLoadQueryEvent.error_code e)
      /\ uint 16 (ExecuteLoadQueryEvent.status_vars_length e)
      /\ uint 32 (ExecuteLoadQueryEvent.file_id e)
      /\ uint 32 (ExecuteLoadQueryEvent.start_pos e)
      /\ uint 32 (ExecuteLoadQueryEvent.end_pos e)
      /\ uint 8 (ExecuteLoadQueryEvent.dup_handling_flags e)
  | Intvar e => uint 8 (IntvarEvent.type e) /\ uint 32 (IntvarEvent.value e)
  | Stop _ | HeartbeatLog _ | NotImplemented _ => True
  end.

(** The value of a lowercase hexadecimal digit. *)
Definition hex_value (c : ascii) : Z :=
  let n := Z.of_N (N_of_ascii c) in
  if n <? 58 then n - 48 else n - 87.

(** ** Sample data *)

Definition bytes_of (s : string) : bytes := list_byte_of_string s.

Definition packet_of (data : bytes) (event_size : Z) : Packet.t :=
  Packet.mk data 0 0 0 0 event_size.

(** ISO-8859-1: every byte is the character of that code, written here in
    UTF-8. *)
Definition latin1_char (b : byte) : bytes :=
  if byte_value b <? 128 then [b]
  else int2byte (192 + byte_value b / 64) ++ int2byte (128 + byte_value b mod 64).

Definition decode_latin1 (data : bytes) : option str :=
  Some (string_of_list_byte (flat_map latin1_char data)).

Definition decode_ascii (data : bytes) : option str :=
  if forallb (fun b => byte_value b <? 128) data
  then Some (string_of_list_byte data) else None.

(** A registry with three of Python's codecs; like Python's it has no
    codec named EUC-TW. *)
Definition sample_codecs : codec_registry :=
  fun name =>
    if String.eqb name "utf-8" then
      Some (fun d => if valid_utf8 d then Some (string_of_list_byte d) else None)
    else if String.eqb name "ascii" then Some decode_ascii
    else if String.eqb name "ISO-8859-1" then Some decode_latin1
    else None.

Definition detect_latin1 (_ : bytes) : option str := Some "ISO-8859-1".
Definition detect_ascii (_ : bytes) : option str := Some "ascii".
Definition detect_nothing (_ : bytes) : option str := None.
Definition detect_euc_tw (_ : bytes) : option str := Some "EUC-TW".

(** A checksum policy for the examples: the one server version below. *)
Definition sample_policy (v : str) : bool := String.eqb v "5.6.24-log".

Definition sample_runtime : runtime :=
  mk_runtime detect_latin1 sample_codecs sample_policy
    (fun _ => "1970-01-01T00:00:00").

Definition zeros (n : nat) : bytes := repeat x00 n.

(** source id 3e11fa47-71ca-11e1-9e33-c80aa9429562 *)
Definition sample_sid : bytes :=
  [x3e; x11; xfa; x47; x71; xca; x11; xe1; x9e; x33; xc8; x0a; xa9; x42; x95; x62].

Definition gtid_body : bytes :=
  [x01] ++ sample_sid ++ [x17; x00; x00; x00; x00; x00; x00; x00].

Definition rotate_body : bytes :=
  [x04; x00; x00; x00; x00; x00; x00; x00] ++ bytes_of "mysql-bin.000002" ++ [x00; x00].

(** A trailer whose only candidate has a line feed before the dot. *)
Definition rotate_body_lf : bytes :=
  [x04; x00; x00; x00; x00; x00; x00; x00] ++ [x0a] ++ bytes_of ".000001".

(** A format description body of 80 bytes after the header: version 4,
    the server version padded to 50 bytes, 23 more bytes, the algorithm
    byte, and the 4 bytes of the checksum. *)
Definition fde_body (version : string) (alg : byte) : bytes :=
  [x04; x00] ++ bytes_of version
  ++ zeros (50 - String.length version) ++ zeros 23 ++ [alg]
  ++ [xde; xad; xbe; xef].

(** A query event body: post-header with the two lengths zero, the
    separator, then the text. *)
Definition query_body (text : bytes) : bytes :=
  zeros 13 ++ [x00] ++ text.

Definition execute_load_query_body : bytes := zeros 26 ++ bytes_of "LOAD".

(** * Properties *)

(** ** The packet and the monad *)

Lemma consume_0 (p : Packet.t) : Packet.consume 0 p = p.
Proof.
  destruct p; unfold Packet.consume; simpl. f_equal. lia.
Qed.

Lemma consume_consume (a b : nat) (p : Packet.t) :
  Packet.consume b (Packet.consume a p) = Packet.consume (a + b) p.
Proof.
  unfold Packet.consume; simpl. f_equal.
  - rewrite skipn_skipn. f_equal. lia.
  - lia.
Qed.

Lemma buffer_consume (n : nat) (p : Packet.t) :
  Packet.buffer (Packet.consume n p) = skipn n (Packet.buffer p).
Proof. reflexivity. Qed.

Lemma read_bytes_consume (n : nat) (p : Packet.t) :
  Packet.read_bytes (Packet.consume n p) = Packet.read_bytes p + Z.of_nat n.
Proof. reflexivity. Qed.

Lemma event_size_consume (n : nat) (p : Packet.t) :
  Packet.event_size (Packet.consume n p) = Packet.event_size p.
Proof. reflexivity. Qed.

Lemma read_ok (n : Z) (p : Packet.t) :
  0 <= n <= Z.of_nat (List.length (Packet.buffer p)) ->
  read n p = inr (firstn (Z.to_nat n) (Packet.buffer p),
                  Packet.consume (Z.to_nat n) p).
Proof.
  intros H. unfold read.
  destruct (0 <=? n) eqn:E1; destruct (n <=? _) eqn:E2; simpl;
    try reflexivity; lia.
Qed.

Lemma read_fails (n : Z) (p : Packet.t) :
  n < 0 \/ Z.of_nat (List.length (Packet.buffer p)) < n ->
  read n p = inl TruncatedPacket.
Proof.
  intros H. unfold read.
  destruct (0 <=? n) eqn:E1; destruct (n <=? _) eqn:E2; simpl;
    try reflexivity; lia.
Qed.

Lemma read_inr (n : Z) (p : Packet.t) (b : bytes) (p' : Packet.t) :
  read n p = inr (b, p') ->
  0 <= n <= Z.of_nat (List.length (Packet.buffer p))
  /\ b = firstn (Z.to_nat n) (Packet.buffer p)
  /\ p' = Packet.consume (Z.to_nat n) p.
Proof.
  unfold read.
  destruct (0 <=? n) eqn:E1; destruct (n <=? _) eqn:E2; simpl;
    intros H; inversion H; subst.
  repeat split; lia.
Qed.

(** A read after [k] bytes have been consumed. *)
Lemma read_after (n : Z) (k : nat) (p : Packet.t) :
  0 <= n ->
  (k + Z.to_nat n <= List.length (Packet.buffer p))%nat ->
  read n (Packet.consume k p)
  = inr (firstn (Z.to_nat n) (skipn k (Packet.buffer p)),
         Packet.consume (k + Z.to_nat n) p).
Proof.
  intros Hn Hk. rewrite read_ok.
  - rewrite consume_consume. reflexivity.
  - rewrite buffer_consume, length_skipn. lia.
Qed.

Lemma bind_inr {A B} (m : M A) (k : A -> M B) (p : Packet.t) (r : B * Packet.t) :
  bind m k p = inr r ->
  exists a p1, m p = inr (a, p1) /\ k a p1 = inr r.
Proof.
  unfold bind. destruct (m p) as [e | [a p1]]; intros H.
  - discriminate.
  - exists a, p1. auto.
Qed.

Lemma lift_inr {A} (r : exn + A) (p : Packet.t) (a : A) (p' : Packet.t) :
  lift r p = inr (a, p') -> r = inr a /\ p' = p.
Proof.
  unfold lift. destruct r; intros H; inversion H; auto.
Qed.

Lemma base_init (es : Z) (tm ctl : object_ref) (kw : kwargs) (p : Packet.t) :
  BinLogEvent.__init__ es tm ctl kw p
  = inr (BinLogEvent.mk tm (Packet.event_type p) (Packet.timestamp p) es ctl
           (fail_on_table_metadata_unavailable kw) true true, p).
Proof. reflexivity. Qed.

Lemma read_uint_inr (w : Z) (p : Packet.t) (v : Z) (p' : Packet.t) :
  (b <- read w ;; ret (unpack_le b)) p = inr (v, p') ->
  0 <= w <= Z.of_nat (List.length (Packet.buffer p))
  /\ v = unpack_le (firstn (Z.to_nat w) (Packet.buffer p))
  /\ p' = Packet.consume (Z.to_nat w) p.
Proof.
  intros H. apply bind_inr in H. destruct H as (b & q & Hr & H).
  apply read_inr in Hr. destruct Hr as (Hw & Hb & Hq).
  unfold ret in H. inversion H. subst. auto.
Qed.

Lemma advance_inr (n : Z) (p : Packet.t) (u : unit) (p' : Packet.t) :
  advance n p = inr (u, p') ->
  0 <= n <= Z.of_nat (List.length (Packet.buffer p))
  /\ p' = Packet.consume (Z.to_nat n) p.
Proof.
  unfold advance. intros H. apply bind_inr in H.
  destruct H as (b & q & Hr & H).
  apply read_inr in Hr. destruct Hr as (Hw & Hb & Hq).
  unfold ret in H. inversion H. subst. auto.
Qed.

Lemma attr_inr {A} (f : Packet.t -> A) (p : Packet.t) (a : A) (p' : Packet.t) :
  attr f p = inr (a, p') -> a = f p /\ p' = p.
Proof.
  unfold attr. intros H. inversion H. auto.
Qed.

(** Take a successful run apart, one packet operation at a time. *)
Ltac split_run H :=
  lazymatch type of H with
  | bind (BinLogEvent.__init__ _ _ _ _) _ _ = inr _ =>
      unfold bind at 1 in H; rewrite base_init in H; split_run H
  | bind _ _ _ = inr _ =>
      let a := fresh "a" in
      let q := fresh "q" in
      let Ha := fresh "Hrun" in
      apply bind_inr in H; destruct H as (a & q & Ha & H);
      first [ apply read_inr in Ha; destruct Ha as (? & ? & ?)
            | apply read_uint_inr in Ha; destruct Ha as (? & ? & ?)
            | apply advance_inr in Ha; destruct Ha as (? & ?)
            | apply lift_inr in Ha; destruct Ha as (? & ?)
            | apply attr_inr in Ha; destruct Ha as (? & ?)
            | split_run Ha ];
      split_run H
  | ret _ _ = inr _ => unfold ret in H; inversion H; clear H
  | _ => idtac
  end.

Lemma byte_value_range (b : byte) : 0 <= byte_value b < 256.
Proof.
  unfold byte_value. pose proof (Byte.to_N_bounded b). lia.
Qed.

Lemma unpack_le_nonneg (data : bytes) : 0 <= unpack_le data.
Proof.
  induction data as [| b rest IH]; cbn [unpack_le].
  - lia.
  - pose proof (byte_value_range b). lia.
Qed.

(** ** Fixed-size events *)

Lemma slice_of_prefix {A} (i n k : nat) (l : list A) :
  (i + n <= k)%nat ->
  firstn n (skipn i (firstn k l)) = firstn n (skipn i l).
Proof.
  intros H. rewrite skipn_firstn_comm, firstn_firstn.
  f_equal. lia.
Qed.

Lemma slice_agree {A} (i n k : nat) (l1 l2 : list A) :
  (i + n <= k)%nat ->
  firstn k l1 = firstn k l2 ->
  firstn n (skipn i l1) = firstn n (skipn i l2).
Proof.
  intros H E.
  rewrite <- (slice_of_prefix i n k l1 H), <- (slice_of_prefix i n k l2 H).
  now rewrite E.
Qed.

(** Start a run: the packet has consumed nothing yet. *)
Ltac start_run p :=
  unfold bind at 1; rewrite base_init;
  rewrite <- (consume_0 p) at 1.

(** One more read of a known width. *)
Ltac literal_widths :=
  repeat match goal with
  | |- context [Z.to_nat (Zpos ?x)] =>
      let n := eval compute in (Z.to_nat (Zpos x)) in
      change (Z.to_nat (Zpos x)) with n
  end;
  cbn [Nat.add].

Ltac run_read :=
  unfold bind at 1;
  rewrite read_after by (simpl; lia);
  literal_widths.

Lemma gtid_decode (es : Z) (tm ctl : object_ref) (kw : kwargs) (p : Packet.t) :
  (25 <= List.length (Packet.buffer p))%nat ->
  GtidEvent.__init__ es tm ctl kw p
  = inr (GtidEvent.mk
           (BinLogEvent.mk tm (Packet.event_type p) (Packet.timestamp p) es ctl
              (fail_on_table_metadata_unavailable kw) true true)
           (byte2int (firstn 1 (skipn 0 (Packet.buffer p))) =? 1)
           (firstn 16 (skipn 1 (Packet.buffer p)))
           (unpack_le (firstn 8 (skipn 17 (Packet.buffer p)))),
         Packet.consume 25 p).
Proof.
  intros H. unfold GtidEvent.__init__.
  start_run p. do 3 run_read. reflexivity.
Qed.

Lemma xid_decode (es : Z) (tm ctl : object_ref) (kw : kwargs) (p : Packet.t) :
  (8 <= List.length (Packet.buffer p))%nat ->
  XidEvent.__init__ es tm ctl kw p
  = inr (XidEvent.mk
           (BinLogEvent.mk tm (Packet.event_type p) (Packet.timestamp p) es ctl
              (fail_on_table_metadata_unavailable kw) true true)
           (unpack_le (firstn 8 (skipn 0 (Packet.buffer p)))),
         Packet.consume 8 p).
Proof.
  intros H. unfold XidEvent.__init__.
  start_run p. run_read. reflexivity.
Qed.

Lemma intvar_decode (es : Z) (tm ctl : object_ref) (kw : kwargs) (p : Packet.t) :
  (5 <= List.length (Packet.buffer p))%nat ->
  IntvarEvent.__init__ es tm ctl kw p
  = inr (IntvarEvent.mk
           (BinLogEvent.mk tm (Packet.event_type p) (Packet.timestamp p) es ctl
              (fail_on_table_metadata_unavailable kw) true true)
           (unpack_le (firstn 1 (skipn 0 (Packet.buffer p))))
           (unpack_le (firstn 4 (skipn 1 (Packet.buffer p)))),
         Packet.consume 5 p).
Proof.
  intros H. unfold IntvarEvent.__init__, read_uint8, read_uint32.
  start_run p.
  unfold bind at 1. unfold bind at 1. rewrite read_after by (simpl; lia).
  literal_widths. unfold ret at 1.
  unfold bind at 1. unfold bind at 1. rewrite read_after by (simpl; lia).
  reflexivity.
Qed.

Lemma same_prefix_length {A} (n : nat) (l1 l2 : list A) :
  (n <= List.length l1)%nat ->
  firstn n l1 = firstn n l2 ->
  (n <= List.length l2)%nat.
Proof.
  intros H E. apply (f_equal (@List.length A)) in E.
  rewrite !length_firstn in E. lia.
Qed.

(** C9.  A GtidEvent, an XidEvent and an IntvarEvent decoded from a packet
    that still holds 25, 8 and 5 bytes are decoded successfully and consume
    exactly 25, 8 and 5 bytes; and two decodes whose packets agree on those
    bytes give the same field values, whatever else differs between the two
    calls. *)
Theorem fixed_size_events_consume_and_agree :
  (forall es1 tm1 ctl1 kw1 es2 tm2 ctl2 kw2 p q,
      (25 <= List.length (Packet.buffer p))%nat ->
      firstn 25 (Packet.buffer p) = firstn 25 (Packet.buffer q) ->
      exists e1 e2,
        GtidEvent.__init__ es1 tm1 ctl1 kw1 p = inr (e1, Packet.consume 25 p)
        /\ GtidEvent.__init__ es2 tm2 ctl2 kw2 q = inr (e2, Packet.consume 25 q)
        /\ Packet.read_bytes (Packet.consume 25 p) = Packet.read_bytes p + 25
        /\ GtidEvent.commit_flag e1 = GtidEvent.commit_flag e2
        /\ GtidEvent.sid e1 = GtidEvent.sid e2
        /\ GtidEvent.gno e1 = GtidEvent.gno e2)
  /\ (forall es1 tm1 ctl1 kw1 es2 tm2 ctl2 kw2 p q,
      (8 <= List.length (Packet.buffer p))%nat ->
      firstn 8 (Packet.buffer p) = firstn 8 (Packet.buffer q) ->
      exists e1 e2,
        XidEvent.__init__ es1 tm1 ctl1 kw1 p = inr (e1, Packet.consume 8 p)
        /\ XidEvent.__init__ es2 tm2 ctl2 kw2 q = inr (e2, Packet.consume 8 q)
        /\ Packet.read_bytes (Packet.consume 8 p) = Packet.read_bytes p + 8
        /\ XidEvent.xid e1 = XidEvent.xid e2)
  /\ (forall es1 tm1 ctl1 kw1 es2 tm2 ctl2 kw2 p q,
      (5 <= List.length (Packet.buffer p))%nat ->
      firstn 5 (Packet.buffer p) = firstn 5 (Packet.buffer q) ->
      exists e1 e2,
        IntvarEvent.__init__ es1 tm1 ctl1 kw1 p = inr (e1, Packet.consume 5 p)
        /\ IntvarEvent.__init__ es2 tm2 ctl2 kw2 q = inr (e2, Packet.consume 5 q)
        /\ Packet.read_bytes (Packet.consume 5 p) = Packet.read_bytes p + 5
        /\ IntvarEvent.type e1 = IntvarEvent.type e2
        /\ IntvarEvent.value e1 = IntvarEvent.value e2).
Proof.
  repeat split; intros es1 tm1 ctl1 kw1 es2 tm2 ctl2 kw2 p q Hp E;
    pose proof (same_prefix_length _ _ _ Hp E) as Hq.
  - eexists; eexists.
    split; [apply gtid_decode; exact Hp |].
    split; [apply gtid_decode; exact Hq |].
    split; [reflexivity |]. cbn [GtidEvent.commit_flag GtidEvent.sid GtidEvent.gno].
    rewrite (slice_agree 0 1 25 _ _ ltac:(lia) E).
    rewrite (slice_agree 1 16 25 _ _ ltac:(lia) E).
    rewrite (slice_agree 17 8 25 _ _ ltac:(lia) E).
    auto.
  - eexists; eexists.
    split; [apply xid_decode; exact Hp |].
    split; [apply xid_decode; exact Hq |].
    split; [reflexivity |]. cbn [XidEvent.xid].
    rewrite (slice_agree 0 8 8 _ _ ltac:(lia) E).
    reflexivity.
  - eexists; eexists.
    split; [apply intvar_decode; exact Hp |].
    split; [apply intvar_decode; exact Hq |].
    split; [reflexivity |]. cbn [IntvarEvent.type IntvarEvent.value].
    rewrite (slice_agree 0 1 5 _ _ ltac:(lia) E).
    rewrite (slice_agree 1 4 5 _ _ ltac:(lia) E).
    auto.
Qed.

Lemma fixed_size_events_witness :
  exists e1 e2,
    GtidEvent.__init__ 25 0 0 default_kwargs (packet_of gtid_body 44)
    = inr (e1, Packet.consume 25 (packet_of gtid_body 44))
    /\ GtidEvent.__init__ 42 1 1 default_kwargs
         (packet_of (gtid_body ++ zeros 17) 61)
       = inr (e2, Packet.consume 25 (packet_of (gtid_body ++ zeros 17) 61))
    /\ Packet.read_bytes (Packet.consume 25 (packet_of gtid_body 44))
       = Packet.read_bytes (packet_of gtid_body 44) + 25
    /\ GtidEvent.commit_flag e1 = GtidEvent.commit_flag e2
    /\ GtidEvent.sid e1 = GtidEvent.sid e2
    /\ GtidEvent.gno e1 = GtidEvent.gno e2.
Proof.
  apply (proj1 fixed_size_events_consume_and_agree).
  - simpl. lia.
  - reflexivity.
Defined.

(** ** Every class: what a successful construction leaves behind *)

(** What was read does not matter for the count: forget it, then add up. *)
Ltac forget_values :=
  repeat match goal with
  | H : ?a = firstn _ _ |- _ => is_var a; clear H
  | H : ?a = unpack_le _ |- _ => is_var a; clear H
  end.

Ltac sum_consumed :=
  subst; rewrite ?consume_consume in *; f_equal; lia.

Lemma construct_inr (rt : runtime) (c : event_class) (es : Z)
    (tm ctl : object_ref) (kw : kwargs) (p : Packet.t)
    (ev : event) (p' : Packet.t) :
  construct rt c es tm ctl kw p = inr (ev, p') ->
  class_of ev = c
  /\ base ev = BinLogEvent.mk tm (Packet.event_type p) (Packet.timestamp p)
                 es ctl (fail_on_table_metadata_unavailable kw) true true
  /\ 0 <= bytes_consumed rt ev p
  /\ p' = Packet.consume (Z.to_nat (bytes_consumed rt ev p)) p.
Proof.
  intros H. destruct c; unfold construct in H.
  - unfold GtidEvent.__init__ in H. split_run H.
    forget_values. subst. simpl. repeat split; try lia; sum_consumed.
  - unfold RotateEvent.__init__ in H. split_run H.
    forget_values. subst. simpl. repeat split; try lia; sum_consumed.
  - unfold FormatDescriptionEvent.__init__ in H. split_run H.
    match goal with
    | Hr : (if is_checksum_supported rt ?v then _ else _) _ = inr _ |- _ =>
        destruct (is_checksum_supported rt v) eqn:E; split_run Hr
    end.
    + forget_values. subst. rewrite !event_size_consume in *. simpl. rewrite E.
      repeat split; try lia; sum_consumed.
    + forget_values. subst. simpl. rewrite E.
      repeat split; try lia; sum_consumed.
  - split_run H. subst. simpl. repeat split; try lia.
    now rewrite consume_0.
  - unfold XidEvent.__init__ in H. split_run H.
    forget_values. subst. simpl. repeat split; try lia; sum_consumed.
  - unfold HeartbeatLogEvent.__init__ in H. split_run H.
    forget_values. subst. simpl. repeat split; try lia; sum_consumed.
  - unfold QueryEvent.__init__ in H. split_run H.
    forget_values. subst. simpl. repeat split; try lia; sum_consumed.
  - unfold BeginLoadQueryEvent.__init__ in H. split_run H.
    forget_values. subst. simpl. repeat split; try lia; sum_consumed.
  - unfold ExecuteLoadQueryEvent.__init__ in H. split_run H.
    forget_values. subst. simpl. repeat split; try lia; sum_consumed.
  - unfold IntvarEvent.__init__ in H. split_run H.
    forget_values. subst. simpl. repeat split; try lia; sum_consumed.
  - unfold NotImplementedEvent.__init__ in H. split_run H.
    forget_values. subst. simpl. repeat split; try lia; sum_consumed.
Qed.

(** C10.  An event that any class of the module constructs has its
    [_processed] flag and its [complete] flag set to true. *)
Theorem constructed_event_processed_and_complete
    (rt : runtime) (c : event_class) (es : Z) (tm ctl : object_ref)
    (kw : kwargs) (p : Packet.t) (ev : event) (p' : Packet.t) :
  construct rt c es tm ctl kw p = inr (ev, p') ->
  BinLogEvent._processed (base ev) = true
  /\ BinLogEvent.complete (base ev) = true.
Proof.
  intros H. apply construct_inr in H. destruct H as (_ & Hb & _).
  rewrite Hb. split; reflexivity.
Qed.

Lemma constructed_event_processed_witness :
  exists ev p',
    construct sample_runtime QueryEvent_class 19 0 0 default_kwargs
      (packet_of (query_body (bytes_of "BEGIN")) 38) = inr (ev, p')
    /\ BinLogEvent._processed (base ev) = true
    /\ BinLogEvent.complete (base ev) = true.
Proof.
  eexists. eexists. split.
  - vm_compute. reflexivity.
  - eapply (constructed_event_processed_and_complete sample_runtime
              QueryEvent_class 19 0 0 default_kwargs
              (packet_of (query_body (bytes_of "BEGIN")) 38)).
    vm_compute. reflexivity.
Defined.

(** ** Stream alignment *)

(** C3, as stated, fails: an ExecuteLoadQueryEvent declared with 30 bytes
    is decoded successfully from a packet that holds those 30 bytes, and
    26 of them are consumed; the last 4 stay unread. *)
Lemma execute_load_query_leaves_bytes_unread :
  exists ev p',
    construct sample_runtime ExecuteLoadQueryEvent_class 30 0 0 default_kwargs
      (packet_of execute_load_query_body 49) = inr (ev, p')
    /\ Packet.read_bytes (packet_of execute_load_query_body 49) = 0
    /\ Packet.read_bytes p' = 26
    /\ Packet.read_bytes p' <> 30
    /\ Packet.buffer p' = bytes_of "LOAD".
Proof.
  eexists. eexists. split.
  - vm_compute. reflexivity.
  - cbn. repeat split. discriminate.
Qed.

(** C3, amended.  After a successful construction the packet has consumed
    exactly [bytes_consumed]: the declared size for RotateEvent,
    HeartbeatLogEvent, QueryEvent, BeginLoadQueryEvent and
    NotImplementedEvent; a fixed count, whatever the declared size, for
    GtidEvent (25), XidEvent (8), IntvarEvent (5), ExecuteLoadQueryEvent (26)
    and StopEvent (0); and for FormatDescriptionEvent 52 bytes, or all of the
    packet's declared size less the 19-byte header and the 4-byte checksum
    when the server version supports checksums. *)
Theorem bytes_consumed_by_class
    (rt : runtime) (c : event_class) (es : Z) (tm ctl : object_ref)
    (kw : kwargs) (p : Packet.t) (ev : event) (p' : Packet.t) :
  construct rt c es tm ctl kw p = inr (ev, p') ->
  class_of ev = c
  /\ BinLogEvent.event_size (base ev) = es
  /\ 0 <= bytes_consumed rt ev p
  /\ Packet.read_bytes p' = Packet.read_bytes p + bytes_consumed rt ev p
  /\ Packet.buffer p'
     = skipn (Z.to_nat (bytes_consumed rt ev p)) (Packet.buffer p)
  /\ (bytes_consumed rt ev p = es <->
      match ev with
      | Gtid _ => es = 25
      | Xid _ => es = 8
      | Intvar _ => es = 5
      | ExecuteLoadQuery _ => es = 26
      | Stop _ => es = 0
      | FormatDescription e =>
          es = if is_checksum_supported rt (FormatDescriptionEvent.server_version e)
               then Packet.event_size p - 19 - 4 else 52
      | Rotate _ | HeartbeatLog _ | Query _ | BeginLoadQuery _
      | NotImplemented _ => True
      end).
Proof.
  intros H. apply construct_inr in H. destruct H as (Hc & Hb & H0 & Hp).
  assert (He : BinLogEvent.event_size (base ev) = es) by (now rewrite Hb).
  repeat split; auto.
  - rewrite Hp, read_bytes_consume. lia.
  - rewrite Hp. reflexivity.
  - destruct ev; unfold bytes_consumed; try rewrite He; intros; try lia; auto.
  - destruct ev; unfold bytes_consumed; try rewrite He; intros; try lia; auto.
Qed.

Lemma bytes_consumed_by_class_witness :
  exists ev p',
    construct sample_runtime FormatDescriptionEvent_class 80 0 0 default_kwargs
      (packet_of (fde_body "5.6.24-log" x01) 99) = inr (ev, p')
    /\ Packet.read_bytes p' = 0 + bytes_consumed sample_runtime ev
                                    (packet_of (fde_body "5.6.24-log" x01) 99)
    /\ Packet.read_bytes p' = 76.
Proof.
  eexists. eexists. split.
  - vm_compute. reflexivity.
  - split.
    + eapply (bytes_consumed_by_class sample_runtime
                FormatDescriptionEvent_class 80 0 0 default_kwargs
                (packet_of (fde_body "5.6.24-log" x01) 99)).
      vm_compute. reflexivity.
    + reflexivity.
Defined.

(** ** FormatDescriptionEvent: the checksum flag *)

Lemma format_description_inr (policy : str -> bool) (es : Z)
    (tm ctl : object_ref) (kw : kwargs) (p : Packet.t)
    (e : FormatDescriptionEvent.t) (p' : Packet.t) :
  FormatDescriptionEvent.__init__ policy es tm ctl kw p = inr (e, p') ->
  decode_utf8 (version_bytes p) = inr (FormatDescriptionEvent.server_version e)
  /\ (52 <= List.length (Packet.buffer p))%nat
  /\ if policy (FormatDescriptionEvent.server_version e) then
       0 <= skipped p
       /\ (2 + 50 + Z.to_nat (skipped p) + 1 <= List.length (Packet.buffer p))%nat
       /\ FormatDescriptionEvent.has_checksum e
          = (unpack_b (algorithm_byte p) =? 1)
       /\ p' = Packet.consume (2 + 50 + Z.to_nat (skipped p) + 1) p
     else
       FormatDescriptionEvent.has_checksum e = false
       /\ p' = Packet.consume 52 p.
Proof.
  intros H. unfold FormatDescriptionEvent.__init__ in H. split_run H.
  match goal with
  | Hr : (if policy ?v then _ else _) _ = inr _ |- _ =>
      destruct (policy v) eqn:E; split_run Hr
  end.
  - subst. rewrite ?consume_consume, ?buffer_consume, ?event_size_consume in *.
    rewrite ?length_skipn in *. cbn [FormatDescriptionEvent.server_version
      FormatDescriptionEvent.has_checksum]. rewrite E.
    unfold version_bytes, algorithm_byte, skipped.
    repeat split; try assumption; try lia.
  - subst. rewrite ?consume_consume, ?buffer_consume in *.
    rewrite ?length_skipn in *. cbn [FormatDescriptionEvent.server_version
      FormatDescriptionEvent.has_checksum]. rewrite E.
    unfold version_bytes.
    repeat split; try assumption; try lia.
Qed.

Lemma format_description_decode (policy : str -> bool) (es : Z)
    (tm ctl : object_ref) (kw : kwargs) (p : Packet.t) (sv : str) :
  (52 <= List.length (Packet.buffer p))%nat ->
  decode_utf8 (version_bytes p) = inr sv ->
  (policy sv = true ->
   0 <= skipped p
   /\ (2 + 50 + Z.to_nat (skipped p) + 1 <= List.length (Packet.buffer p))%nat) ->
  FormatDescriptionEvent.__init__ policy es tm ctl kw p
  = inr (FormatDescriptionEvent.mk
           (BinLogEvent.mk tm (Packet.event_type p) (Packet.timestamp p) es ctl
              (fail_on_table_metadata_unavailable kw) true true)
           (unpack_le (firstn 2 (skipn 0 (Packet.buffer p))))
           sv
           (policy sv && (unpack_b (algorithm_byte p) =? 1)),
         Packet.consume
           (if policy sv then 2 + 50 + Z.to_nat (skipped p) + 1 else 52)%nat p).
Proof.
  intros Hlen Hsv Hskip. unfold FormatDescriptionEvent.__init__.
  start_run p. do 2 run_read.
  unfold bind at 1. unfold version_bytes in Hsv. rewrite Hsv. unfold lift.
  destruct (policy sv) eqn:E.
  - destruct (Hskip eq_refl) as (H0 & H1).
    unfold bind at 1. unfold attr. rewrite event_size_consume.
    unfold bind at 1. fold (skipped p).
    rewrite read_after by (simpl; lia).
    unfold bind at 1. rewrite read_after by (simpl; lia).
    unfold ret, algorithm_byte. simpl andb.
    repeat f_equal; simpl; lia.
  - reflexivity.
Qed.

(** C4.  For every FormatDescriptionEvent decode, [has_checksum] is true
    exactly when the checksum policy accepts the decoded server version and
    the signed byte found after skipping (packet event size - 19) - 2 - 50 - 5
    bytes is 1.  When the policy does not accept the version, the flag is
    false and the decode stops after the 52 bytes of the two version fields.
    When it does, the decode stops right after the algorithm byte, 4 bytes
    short of the declared body.  A packet that holds those bytes, with a
    server version that is valid UTF-8, is always decoded. *)
Theorem format_description_has_checksum
    (policy : str -> bool) (es : Z) (tm ctl : object_ref) (kw : kwargs)
    (p : Packet.t) :
  (forall e p',
      FormatDescriptionEvent.__init__ policy es tm ctl kw p = inr (e, p') ->
      let sv := FormatDescriptionEvent.server_version e in
      decode_utf8 (version_bytes p) = inr sv
      /\ (FormatDescriptionEvent.has_checksum e = true <->
          policy sv = true /\ unpack_b (algorithm_byte p) = 1)
      /\ (policy sv = false ->
          FormatDescriptionEvent.has_checksum e = false
          /\ p' = Packet.consume 52 p)
      /\ (policy sv = true ->
          0 <= skipped p
          /\ Packet.read_bytes p'
             = Packet.read_bytes p + (Packet.event_size p - 19) - 4
          /\ Packet.buffer p'
             = skipn (Z.to_nat ((Packet.event_size p - 19) - 4))
                 (Packet.buffer p)))
  /\ (forall sv,
      (52 <= List.length (Packet.buffer p))%nat ->
      decode_utf8 (version_bytes p) = inr sv ->
      (policy sv = true ->
       0 <= skipped p
       /\ Z.of_nat (List.length (Packet.buffer p))
          >= (Packet.event_size p - 19) - 4) ->
      exists e p',
        FormatDescriptionEvent.__init__ policy es tm ctl kw p = inr (e, p')
        /\ FormatDescriptionEvent.server_version e = sv).
Proof.
  split.
  - intros e p' H sv. apply format_description_inr in H.
    destruct H as (Hsv & Hlen & H). fold sv in Hsv, H.
    split; [exact Hsv |].
    destruct (policy sv) eqn:E.
    + destruct H as (H0 & H1 & Hc & Hp). rewrite Hc.
      split; [| split]; [| discriminate |].
      * rewrite Z.eqb_eq. tauto.
      * intros _. split; [exact H0 |]. rewrite Hp. unfold skipped in *.
        rewrite read_bytes_consume, buffer_consume.
        split; [lia | f_equal; lia].
    + destruct H as (Hc & Hp). rewrite Hc.
      split; [| split]; [| auto | discriminate].
      split; [discriminate | intros (Hf & _); discriminate].
  - intros sv Hlen Hsv Hskip. eexists. eexists. split.
    + apply format_description_decode with (sv := sv); auto.
      intros E. destruct (Hskip E) as (H0 & H1).
      unfold skipped in *. split; lia.
    + reflexivity.
Qed.

Lemma format_description_has_checksum_witness :
  exists e p',
    FormatDescriptionEvent.__init__ sample_policy 80 0 0 default_kwargs
      (packet_of (fde_body "5.6.24-log" x01) 99) = inr (e, p')
    /\ FormatDescriptionEvent.server_version e = "5.6.24-log"
    /\ (FormatDescriptionEvent.has_checksum e = true <->
        sample_policy (FormatDescriptionEvent.server_version e) = true
        /\ unpack_b (algorithm_byte (packet_of (fde_body "5.6.24-log" x01) 99)) = 1).
Proof.
  eexists. eexists. split; [| split].
  - vm_compute. reflexivity.
  - reflexivity.
  - eapply (proj1 (format_description_has_checksum sample_policy 80 0 0
                     default_kwargs (packet_of (fde_body "5.6.24-log" x01) 99))).
    vm_compute. reflexivity.
Defined.

(** The three decodes of the specification's examples. *)
Example format_description_examples :
  option_map (fun r => FormatDescriptionEvent.has_checksum (fst r))
    (match FormatDescriptionEvent.__init__ sample_policy 80 0 0 default_kwargs
             (packet_of (fde_body "5.0.96" x01) 99) with
     | inr r => Some r | inl _ => None end) = Some false
  /\ option_map (fun r => FormatDescriptionEvent.has_checksum (fst r))
    (match FormatDescriptionEvent.__init__ sample_policy 80 0 0 default_kwargs
             (packet_of (fde_body "5.6.24-log" x01) 99) with
     | inr r => Some r | inl _ => None end) = Some true
  /\ option_map (fun r => FormatDescriptionEvent.has_checksum (fst r))
    (match FormatDescriptionEvent.__init__ sample_policy 80 0 0 default_kwargs
             (packet_of (fde_body "5.6.24-log" x00) 99) with
     | inr r => Some r | inl _ => None end) = Some false.
Proof. repeat split. Qed.

(** ** GtidEvent: the GTID text *)

Lemma hex_digit_lower (n : Z) :
  0 <= n < 16 -> is_lower_hex (hex_digit n) = true.
Proof.
  intros H. rewrite <- (Z2Nat.id n) by lia.
  assert (Hm : (Z.to_nat n < 16)%nat) by lia.
  revert Hm. generalize (Z.to_nat n) as m. intros m Hm.
  do 16 (destruct m as [| m]; [reflexivity |]). lia.
Qed.

Lemma hexlify_lower (data : bytes) :
  forallb is_lower_hex (list_ascii_of_string (hexlify data)) = true.
Proof.
  induction data as [| b rest IH]; [reflexivity |].
  pose proof (byte_value_range b) as Hb.
  cbn [hexlify list_ascii_of_string forallb].
  rewrite IH, !hex_digit_lower; [reflexivity | |].
  - apply Z.mod_pos_bound. lia.
  - split; [apply Z.div_pos; lia | apply Z.div_lt_upper_bound; lia].
Qed.

Lemma hexlify_length (data : bytes) :
  String.length (hexlify data) = (2 * List.length data)%nat.
Proof.
  induction data as [| b rest IH]; [reflexivity |].
  cbn [hexlify String.length List.length]. rewrite IH. lia.
Qed.

(** ['%d' % n] is the decimal writing of [n]: read back, it gives [n]. *)
Lemma format_d_parses (n : Z) :
  option_map Z.of_int (NilZero.int_of_string (format_d n)) = Some n.
Proof.
  unfold format_d. rewrite NilZero.isi.
  - cbn [option_map]. now rewrite DecimalZ.of_to.
  - destruct n; cbn; try discriminate.
    intros H. injection H as H. now apply Unsigned.to_uint_nonnil in H.
  - destruct n; cbn; try discriminate.
    intros H. injection H as H. now apply Unsigned.to_uint_nonnil in H.
Qed.

Lemma gtid_decoded_sid_length (es : Z) (tm ctl : object_ref) (kw : kwargs)
    (p : Packet.t) (e : GtidEvent.t) (p' : Packet.t) :
  GtidEvent.__init__ es tm ctl kw p = inr (e, p') ->
  List.length (GtidEvent.sid e) = 16%nat.
Proof.
  intros H. unfold GtidEvent.__init__ in H. split_run H.
  subst. cbn [GtidEvent.sid]. rewrite length_firstn.
  rewrite buffer_consume in *. lia.
Qed.

(** C5.  For a GtidEvent with a 16-byte source id, the [gtid] text is the
    32 lowercase hexadecimal digits of the source id cut into groups of 8,
    4, 4, 4 and 12 joined by hyphens, then a colon and the transaction
    number in decimal; the source id 3e11fa4771ca11e19e33c80aa9429562 with
    transaction number 23 gives 3e11fa47-71ca-11e1-9e33-c80aa9429562:23. *)
Theorem gtid_is_grouped_hex_and_decimal (e : GtidEvent.t) :
  List.length (GtidEvent.sid e) = 16%nat ->
  GtidEvent.gtid e = gtid_text (GtidEvent.sid e) (GtidEvent.gno e)
  /\ String.length (hexlify (GtidEvent.sid e)) = 32%nat
  /\ forallb is_lower_hex
       (list_ascii_of_string (hexlify (GtidEvent.sid e))) = true
  /\ map String.length
       (split_groups [8; 4; 4; 4; 12]%nat (hexlify (GtidEvent.sid e)))
     = [8; 4; 4; 4; 12]%nat
  /\ String.concat EmptyString
       (split_groups [8; 4; 4; 4; 12]%nat (hexlify (GtidEvent.sid e)))
     = hexlify (GtidEvent.sid e)
  /\ option_map Z.of_int (NilZero.int_of_string (format_d (GtidEvent.gno e)))
     = Some (GtidEvent.gno e)
  /\ (GtidEvent.sid e = sample_sid -> GtidEvent.gno e = 23 ->
      GtidEvent.gtid e = "3e11fa47-71ca-11e1-9e33-c80aa9429562:23").
Proof.
  intros H. destruct e as [b c s g]. cbn [GtidEvent.sid GtidEvent.gno] in *.
  split; [| split; [| split; [| split; [| split; [| split]]]]].
  - do 16 (destruct s as [| ? s]; [discriminate |]).
    destruct s; [| discriminate]. reflexivity.
  - rewrite hexlify_length, H. reflexivity.
  - apply hexlify_lower.
  - do 16 (destruct s as [| ? s]; [discriminate |]).
    destruct s; [| discriminate]. reflexivity.
  - do 16 (destruct s as [| ? s]; [discriminate |]).
    destruct s; [| discriminate]. reflexivity.
  - apply format_d_parses.
  - intros Hs Hg. subst s g. reflexivity.
Qed.

Lemma gtid_is_grouped_hex_witness :
  exists e p',
    GtidEvent.__init__ 25 0 0 default_kwargs (packet_of gtid_body 44)
    = inr (e, p')
    /\ List.length (GtidEvent.sid e) = 16%nat
    /\ GtidEvent.gtid e = gtid_text (GtidEvent.sid e) (GtidEvent.gno e)
    /\ GtidEvent.gtid e = "3e11fa47-71ca-11e1-9e33-c80aa9429562:23".
Proof.
  eexists. eexists. split; [vm_compute; reflexivity |].
  split; [reflexivity |].
  split.
  - refine (proj1 (gtid_is_grouped_hex_and_decimal _ _)). reflexivity.
  - reflexivity.
Defined.

(** ** QueryEvent: the length of the query text *)

Lemma byte2int_nonneg (b : bytes) : 0 <= byte2int b.
Proof. apply unpack_le_nonneg. Qed.

(** Up to the separator byte a QueryEvent reads 14 bytes and the two
    variable fields; what is left of the constructor is the read of the
    query text, its decoding, and the record. *)
Lemma query_decode_tail (detect : bytes -> option str) (codecs : codec_registry)
    (es : Z) (tm ctl : object_ref) (kw : kwargs) (p : Packet.t) :
  let buf := Packet.buffer p in
  let sl := schema_length_of p in
  let svl := status_vars_length_of p in
  14 + svl + sl <= Z.of_nat (List.length buf) ->
  QueryEvent.__init__ detect codecs es tm ctl kw p
  = (query <- read (es - 13 - svl - sl - 1) ;;
     query <- lift (QueryEvent._decode_query detect codecs query) ;;
     ret (QueryEvent.mk
            (BinLogEvent.mk tm (Packet.event_type p) (Packet.timestamp p) es
               ctl (fail_on_table_metadata_unavailable kw) true true)
            (unpack_le (firstn 4 (skipn 0 buf)))
            (unpack_le (firstn 4 (skipn 4 buf)))
            sl
            (unpack_le (firstn 2 (skipn 9 buf)))
            svl
            (firstn (Z.to_nat svl) (skipn 13 buf))
            (firstn (Z.to_nat sl) (skipn (13 + Z.to_nat svl) buf))
            query))
      (Packet.consume (Z.to_nat (14 + svl + sl)) p).
Proof.
  intros buf sl svl. subst buf sl svl. intros H.
  pose proof (byte2int_nonneg (firstn 1 (skipn 8 (Packet.buffer p)))) as Hsl.
  pose proof (unpack_le_nonneg (firstn 2 (skipn 11 (Packet.buffer p)))) as Hsvl.
  fold (schema_length_of p) in Hsl. fold (status_vars_length_of p) in Hsvl.
  unfold QueryEvent.__init__, read_uint32, read_uint16, advance.
  start_run p.
  do 2 (unfold bind at 1; unfold bind at 1; rewrite read_after by (simpl; lia);
        literal_widths; unfold ret at 1).
  run_read.
  do 2 (unfold bind at 1; unfold bind at 1; rewrite read_after by (simpl; lia);
        literal_widths; unfold ret at 1).
  fold (schema_length_of p) (status_vars_length_of p).
  unfold bind at 1. rewrite read_after by lia.
  unfold bind at 1. rewrite read_after by lia.
  unfold bind at 1. unfold bind at 1. rewrite read_after by (simpl; lia).
  unfold ret at 1.
  replace (13 + Z.to_nat (status_vars_length_of p)
           + Z.to_nat (schema_length_of p) + Z.to_nat 1)%nat
    with (Z.to_nat (14 + status_vars_length_of p + schema_length_of p)) by lia.
  reflexivity.
Qed.

(** C1, as stated, fails: with both length fields zero and a declared size
    of 13 the computed length of the query text is -1
    (0 + 0 + 14 > 13).  The decode fails with the packet's own failure for a
    request it cannot serve, the failure that a well-formed event cut short
    gives too: the negative length went to the packet's read, and no error
    of another kind is raised. *)
Lemma query_underflow_is_the_packet_failure :
  status_vars_length_of (packet_of (query_body []) 32) = 0
  /\ schema_length_of (packet_of (query_body []) 32) = 0
  /\ 13 - 13 - 0 - 0 - 1 = -1
  /\ QueryEvent.__init__ detect_latin1 sample_codecs 13 0 0 default_kwargs
       (packet_of (query_body []) 32) = inl TruncatedPacket
  /\ read (-1) (Packet.consume 14 (packet_of (query_body []) 32))
     = inl TruncatedPacket
  /\ QueryEvent.__init__ detect_latin1 sample_codecs 19 0 0 default_kwargs
       (packet_of (query_body (bytes_of "BEG")) 38) = inl TruncatedPacket.
Proof. repeat split. Qed.

(** C1, amended.  When the 14 fixed bytes and the two variable fields of a
    QueryEvent can be read and the computed length of the query text,
    event_size - 13 - status_vars_length - schema_length - 1, is negative,
    the constructor makes no check of its own: it requests that negative
    count from the packet, where the fields end, and the failure of that
    read is the failure of the decode. *)
Theorem query_negative_length_goes_to_the_packet
    (detect : bytes -> option str) (codecs : codec_registry)
    (es : Z) (tm ctl : object_ref) (kw : kwargs) (p : Packet.t) :
  let sl := schema_length_of p in
  let svl := status_vars_length_of p in
  let len := es - 13 - svl - sl - 1 in
  let at_text := Packet.consume (Z.to_nat (14 + svl + sl)) p in
  14 + svl + sl <= Z.of_nat (List.length (Packet.buffer p)) ->
  len < 0 ->
  QueryEvent.__init__ detect codecs es tm ctl kw p
  = match read len at_text with
    | inl e => inl e
    | inr (query, p') =>
        (query <- lift (QueryEvent._decode_query detect codecs query) ;;
         ret (QueryEvent.mk
                (BinLogEvent.mk tm (Packet.event_type p) (Packet.timestamp p)
                   es ctl (fail_on_table_metadata_unavailable kw) true true)
                (unpack_le (firstn 4 (skipn 0 (Packet.buffer p))))
                (unpack_le (firstn 4 (skipn 4 (Packet.buffer p))))
                sl
                (unpack_le (firstn 2 (skipn 9 (Packet.buffer p))))
                svl
                (firstn (Z.to_nat svl) (skipn 13 (Packet.buffer p)))
                (firstn (Z.to_nat sl)
                   (skipn (13 + Z.to_nat svl) (Packet.buffer p)))
                query)) p'
    end
  /\ read len at_text = inl TruncatedPacket
  /\ QueryEvent.__init__ detect codecs es tm ctl kw p = inl TruncatedPacket.
Proof.
  intros sl svl len at_text Hfields Hneg.
  pose proof (query_decode_tail detect codecs es tm ctl kw p Hfields) as Htail.
  cbv zeta in Htail. fold sl svl in Htail. fold len at_text in Htail.
  assert (Hread : read len at_text = inl TruncatedPacket).
  { apply read_fails. left. exact Hneg. }
  split; [| split].
  - rewrite Htail. unfold bind at 1. reflexivity.
  - exact Hread.
  - rewrite Htail. unfold bind at 1. rewrite Hread. reflexivity.
Qed.

Lemma query_negative_length_witness :
  QueryEvent.__init__ detect_latin1 sample_codecs 13 0 0 default_kwargs
    (packet_of (query_body []) 32) = inl TruncatedPacket.
Proof.
  refine (proj2 (proj2 (query_negative_length_goes_to_the_packet
                  detect_latin1 sample_codecs 13 0 0 default_kwargs
                  (packet_of (query_body []) 32) _ _))).
  - vm_compute. discriminate.
  - vm_compute. reflexivity.
Defined.

(** ** QueryEvent: decoding the query text *)

(** C2, as stated, fails.  The empty bytes are valid UTF-8 and their strict
    decoding is the empty str, but [_decode_query] hands them back as
    bytes.  And a decoding failure can come out: for bytes that are not
    valid UTF-8 and a detector that suggests EUC-TW, a name for which Python
    has no codec, the lookup failure is not caught. *)
Lemma decode_query_empty_and_unknown_encoding :
  valid_utf8 [] = true
  /\ decode_utf8 [] = inr EmptyString
  /\ QueryEvent._decode_query detect_latin1 sample_codecs [] = inr (Bytes [])
  /\ QueryEvent._decode_query detect_latin1 sample_codecs []
     <> inr (Str EmptyString)
  /\ valid_utf8 [xe9] = false
  /\ detect_euc_tw [xe9] = Some "EUC-TW"
  /\ sample_codecs "EUC-TW" = None
  /\ QueryEvent._decode_query detect_euc_tw sample_codecs [xe9]
     = inl LookupError.
Proof. repeat split. discriminate. Qed.

(** C2, amended.  Empty query bytes are returned as they are.  Non-empty
    bytes that are valid UTF-8 are returned as their strict decoding.
    Otherwise, when the detector suggests nothing the bytes are returned
    unchanged, and when it suggests an encoding that the codec registry
    knows, the result is the decoding under it if that succeeds and the
    bytes unchanged if it does not.  None of these cases raises. *)
Theorem decode_query_cases
    (detect : bytes -> option str) (codecs : codec_registry) (query : bytes) :
  (query = [] ->
   QueryEvent._decode_query detect codecs query = inr (Bytes query))
  /\ (query <> [] -> valid_utf8 query = true ->
      QueryEvent._decode_query detect codecs query
      = inr (Str (string_of_list_byte query)))
  /\ (query <> [] -> valid_utf8 query = false -> detect query = None ->
      QueryEvent._decode_query detect codecs query = inr (Bytes query))
  /\ (forall name decoder,
      query <> [] -> valid_utf8 query = false ->
      detect query = Some name -> codecs name = Some decoder ->
      QueryEvent._decode_query detect codecs query
      = inr (match decoder query with
             | Some s => Str s
             | None => Bytes query
             end)).
Proof.
  unfold QueryEvent._decode_query, decode_utf8, bytes_decode.
  repeat split.
  - intros ->. reflexivity.
  - intros Hne Hv. destruct query; [congruence |]. rewrite Hv. reflexivity.
  - intros Hne Hv Hd. destruct query; [congruence |]. rewrite Hv, Hd.
    reflexivity.
  - intros name decoder Hne Hv Hd Hc. destruct query; [congruence |].
    rewrite Hv, Hd, Hc. cbn. destruct (decoder _); reflexivity.
Qed.

Lemma decode_query_cases_witness :
  QueryEvent._decode_query detect_latin1 sample_codecs [xe9]
  = inr (Str (string_of_list_byte [xc3; xa9])).
Proof.
  refine (proj2 (proj2 (proj2 (decode_query_cases detect_latin1 sample_codecs
                                 [xe9]))) "ISO-8859-1" decode_latin1 _ _ _ _).
  - discriminate.
  - reflexivity.
  - reflexivity.
  - reflexivity.
Defined.

(** The case that the amended statement leaves out: a detector that
    suggests a name unknown to the registry.  The lookup failure is not
    among the exceptions that [_decode_query] catches. *)
Lemma decode_query_unknown_encoding (detect : bytes -> option str)
    (codecs : codec_registry) (query : bytes) (name : str) :
  query <> [] -> valid_utf8 query = false ->
  detect query = Some name -> codecs name = None ->
  QueryEvent._decode_query detect codecs query = inl LookupError.
Proof.
  unfold QueryEvent._decode_query, decode_utf8, bytes_decode.
  intros Hne Hv Hd Hc. destruct query; [congruence |].
  rewrite Hv, Hd, Hc. reflexivity.
Qed.

Example decode_query_examples :
  QueryEvent._decode_query detect_latin1 sample_codecs (bytes_of "BEGIN")
  = inr (Str "BEGIN")
  /\ QueryEvent._decode_query detect_nothing sample_codecs [xe9]
     = inr (Bytes [xe9])
  /\ QueryEvent._decode_query detect_ascii sample_codecs [xe9]
     = inr (Bytes [xe9])
  /\ QueryEvent._decode_query detect_euc_tw sample_codecs [xe9]
     = inl LookupError.
Proof. repeat split. Qed.

(** ** RotateEvent: the name of the next binlog file *)

Lemma rest_shape_nil (k : nat) : ~ rest_shape [] k.
Proof.
  intros (pre & ds & r & E & _). destruct pre; discriminate.
Qed.

Lemma rest_shape_cons (c : byte) (r : bytes) (k : nat) :
  rest_shape (c :: r) (S k) <-> re_any c = true /\ rest_shape r k.
Proof.
  split.
  - intros (pre & ds & t & E & Hpre & Hlen & Hd & Hk).
    destruct pre as [| c' pre']; [discriminate |].
    cbn in E, Hk. injection E as -> ->. inversion Hpre; subst.
    split; [assumption |].
    exists pre', ds, t. repeat split; auto.
  - intros (Hc & pre & ds & t & E & Hpre & Hlen & Hd & Hk).
    exists (c :: pre), ds, t. subst. repeat split; auto.
Qed.

Lemma re_suffix_true (s : bytes) : re_suffix s = true <-> rest_shape s 0.
Proof.
  split.
  - destruct s as [| d rest]; [discriminate |]. unfold re_suffix.
    rewrite !andb_true_iff. intros [[Hd Hl] Hf].
    apply Byte.byte_dec_bl in Hd. apply Nat.leb_le in Hl. subst d.
    exists [], (firstn 6 rest), (skipn 6 rest). cbn [app].
    rewrite firstn_skipn. repeat split; auto.
    + rewrite length_firstn. lia.
    + apply Forall_forall. now apply forallb_forall.
  - intros (pre & ds & r & E & _ & Hlen & Hd & Hk).
    destruct pre; [| discriminate]. cbn [app] in E. subst s.
    unfold re_suffix. rewrite !andb_true_iff.
    split; [split |].
    + now apply Byte.byte_dec_lb.
    + apply Nat.leb_le. rewrite length_app. lia.
    + rewrite firstn_app, Hlen, Nat.sub_diag, firstn_O, app_nil_r.
      rewrite <- Hlen, firstn_all. apply forallb_forall.
      now apply Forall_forall.
Qed.

Lemma re_rest_spec (s : bytes) :
  match re_rest s with
  | Some n =>
      exists k, n = (k + 7)%nat /\ rest_shape s k
                /\ forall k', rest_shape s k' -> (k' <= k)%nat
  | None => forall k, ~ rest_shape s k
  end.
Proof.
  induction s as [| c r IH]; cbn [re_rest].
  - intros k. apply rest_shape_nil.
  - assert (Hhere :
      (forall k, ~ rest_shape (c :: r) (S k)) ->
      match (if re_suffix (c :: r) then Some 7%nat else None) with
      | Some n =>
          exists k, n = (k + 7)%nat /\ rest_shape (c :: r) k
                    /\ forall k', rest_shape (c :: r) k' -> (k' <= k)%nat
      | None => forall k, ~ rest_shape (c :: r) k
      end).
    { intros Hno. destruct (re_suffix (c :: r)) eqn:Es.
      - exists 0%nat. repeat split; [now apply re_suffix_true |].
        intros [| k'] Hk'; [lia | now apply Hno in Hk'].
      - intros [| k] Hk; [| now apply Hno in Hk].
        apply re_suffix_true in Hk. congruence. }
    destruct (re_any c) eqn:Ec.
    + destruct (re_rest r) as [n' |] eqn:Er.
      * destruct IH as (k & -> & Hk & Hmax).
        exists (S k). repeat split.
        -- apply rest_shape_cons. auto.
        -- intros [| k'] Hk'; [lia |].
           apply rest_shape_cons in Hk'. destruct Hk' as (_ & Hk').
           apply Hmax in Hk'. lia.
      * apply Hhere. intros k Hk. apply rest_shape_cons in Hk.
        destruct Hk as (_ & Hk). now apply IH in Hk.
    + apply Hhere. intros k Hk. apply rest_shape_cons in Hk.
      destruct Hk as (Hc & _). congruence.
Qed.

Lemma match_shape_cons (s : bytes) (n : nat) :
  match_shape s n <->
  exists c r k, s = c :: r /\ re_any c = true /\ rest_shape r k
                /\ n = S (k + 7).
Proof.
  split.
  - intros (m & t & E & (pre & ds & Em & Hne & Hpre & Hlen & Hd) & Hn).
    destruct pre as [| c pre']; [congruence |]. inversion Hpre; subst.
    exists c, (pre' ++ "."%byte :: ds ++ t), (List.length pre').
    repeat split; auto.
    + cbn [app]. f_equal. rewrite <- app_assoc. reflexivity.
    + exists pre', ds, t. repeat split; auto.
    + cbn [app List.length]. rewrite length_app. cbn [List.length]. lia.
  - intros (c & r & k & E & Hc & (pre & ds & t & Er & Hpre & Hlen & Hd & Hk) & Hn).
    exists (c :: pre ++ "."%byte :: ds), t. subst. repeat split.
    + cbn [app]. f_equal. rewrite <- app_assoc. reflexivity.
    + exists (c :: pre), ds. repeat split; auto. discriminate.
    + cbn [List.length]. rewrite length_app. cbn [List.length]. lia.
Qed.

Lemma re_match_spec (s : bytes) :
  match re_match s with
  | Some n => match_shape s n /\ forall n', match_shape s n' -> (n' <= n)%nat
  | None => forall n, ~ match_shape s n
  end.
Proof.
  destruct s as [| c r]; cbn [re_match].
  - intros n H. apply match_shape_cons in H.
    destruct H as (c & r & k & E & _). discriminate.
  - destruct (re_any c) eqn:Ec.
    + pose proof (re_rest_spec r) as Hr.
      destruct (re_rest r) as [n |]; cbn [option_map].
      * destruct Hr as (k & -> & Hk & Hmax). split.
        -- apply match_shape_cons. exists c, r, k. auto.
        -- intros n' H. apply match_shape_cons in H.
           destruct H as (c' & r' & k' & E & _ & Hk' & ->).
           injection E as <- <-. apply Hmax in Hk'. lia.
      * intros n H. apply match_shape_cons in H.
        destruct H as (c' & r' & k' & E & _ & Hk' & _).
        injection E as <- <-. now apply Hr in Hk'.
    + intros n H. apply match_shape_cons in H.
      destruct H as (c' & r' & k' & E & Hc & _).
      injection E as <- <-. congruence.
Qed.

Lemma re_matches_not_nil : ~ re_matches [].
Proof.
  intros (pre & ds & E & _). destruct pre; discriminate.
Qed.

Lemma firstn_length_app {A} (m r : list A) : firstn (List.length m) (m ++ r) = m.
Proof.
  rewrite firstn_app, Nat.sub_diag, firstn_O, firstn_all, app_nil_r.
  reflexivity.
Qed.

(** The first element of [findall]: the match that starts first in [s],
    and the longest of those that start there; no element when no
    substring matches. *)
Lemma findall_head (s : bytes) :
  forall fuel, (List.length s < fuel)%nat ->
  match findall_from fuel s with
  | [] => forall l m r, s = l ++ m ++ r -> ~ re_matches m
  | m0 :: _ =>
      exists l r,
        s = l ++ m0 ++ r /\ re_matches m0 /\
        forall l' m' r', s = l' ++ m' ++ r' -> re_matches m' ->
          (List.length l <= List.length l')%nat
          /\ (List.length l' = List.length l ->
              (List.length m' <= List.length m0)%nat)
  end.
Proof.
  induction s as [| c t IH]; intros [| f] Hf; try (cbn in Hf; lia);
    cbn [findall_from].
  - cbn [re_match]. intros l m r E. symmetry in E.
    apply app_eq_nil in E. destruct E as (_ & E).
    apply app_eq_nil in E. destruct E as (-> & _).
    apply re_matches_not_nil.
  - pose proof (re_match_spec (c :: t)) as Hm.
    destruct (re_match (c :: t)) as [n |].
    + destruct Hm as ((m & r & E & Hmm & Hlen) & Hmax).
      assert (Hfirst : firstn n (c :: t) = m).
      { rewrite E, <- Hlen. apply firstn_length_app. }
      rewrite Hfirst. exists [], r. repeat split; auto; try (cbn; lia).
      intros Hl'. destruct l'; [| discriminate]. cbn [app] in H.
      rewrite Hlen. apply Hmax. exists m', r'. auto.
    + assert (Hf' : (List.length t < f)%nat) by (cbn in Hf; lia).
      specialize (IH f Hf').
      destruct (findall_from f t) as [| m0 ms].
      * intros l m r E Hmm. destruct l as [| c' l'].
        -- apply (Hm (List.length m)). exists m, r. auto.
        -- cbn [app] in E. injection E as <- E. now apply (IH l' m r).
      * destruct IH as (l & r & E & Hmm & Hmin).
        exists (c :: l), r. repeat split.
        -- cbn [app]. now rewrite <- E.
        -- assumption.
        -- destruct l' as [| c' l''].
           ++ exfalso. apply (Hm (List.length m')). exists m', r'. auto.
           ++ cbn [app] in H. injection H as <- H.
              destruct (Hmin l'' m' r' H H0) as (Hle & _). cbn. lia.
        -- intros Hl'. destruct l' as [| c' l'']; [discriminate |].
           cbn [app] in H. injection H as <- H.
           destruct (Hmin l'' m' r' H H0) as (_ & Hlong).
           apply Hlong. cbn in Hl'. lia.
Qed.

Lemma decode_utf8_error (data : bytes) (e : exn) :
  decode_utf8 data = inl e -> e = UnicodeDecodeError.
Proof.
  unfold decode_utf8. destruct (valid_utf8 data); intros H; inversion H.
  reflexivity.
Qed.

(** What [RotateEvent.__init__] does once the trailer is known. *)
Lemma rotate_decode (es : Z) (tm ctl : object_ref) (kw : kwargs) (p : Packet.t) :
  8 <= es <= Z.of_nat (List.length (Packet.buffer p)) ->
  RotateEvent.__init__ es tm ctl kw p
  = match findall (trailer_of es p) with
    | [] =>
        inr (RotateEvent.mk
               (BinLogEvent.mk tm (Packet.event_type p) (Packet.timestamp p)
                  es ctl (fail_on_table_metadata_unavailable kw) true true)
               (unpack_le (firstn 8 (Packet.buffer p))) None,
             Packet.consume (Z.to_nat es) p)
    | m0 :: _ =>
        match decode_utf8 m0 with
        | inr s =>
            inr (RotateEvent.mk
                   (BinLogEvent.mk tm (Packet.event_type p)
                      (Packet.timestamp p) es ctl
                      (fail_on_table_metadata_unavailable kw) true true)
                   (unpack_le (firstn 8 (Packet.buffer p))) (Some s),
                 Packet.consume (Z.to_nat es) p)
        | inl e => inl e
        end
    end.
Proof.
  intros H. unfold RotateEvent.__init__, trailer_of.
  start_run p. run_read.
  unfold bind at 1. rewrite read_after by lia.
  replace (8 + Z.to_nat (es - 8))%nat with (Z.to_nat es) by lia.
  unfold bind at 1.
  destruct (findall _) as [| m0 ms]; cbn [getitem0 ebind try_except].
  - reflexivity.
  - destruct (decode_utf8 m0) as [e | s] eqn:Ed; cbn [ebind try_except lift].
    + apply decode_utf8_error in Ed. subst e. reflexivity.
    + reflexivity.
Qed.

(** A RotateEvent is decoded only from a packet that holds the position
    and the trailer. *)
Lemma rotate_inr_bounds (es : Z) (tm ctl : object_ref) (kw : kwargs)
    (p : Packet.t) (e : RotateEvent.t) (p' : Packet.t) :
  RotateEvent.__init__ es tm ctl kw p = inr (e, p') ->
  8 <= es <= Z.of_nat (List.length (Packet.buffer p)).
Proof.
  intros H. unfold RotateEvent.__init__ in H. split_run H.
  forget_values. subst. rewrite buffer_consume, length_skipn in *. lia.
Qed.

(** C6, as stated, fails: in the trailer below a line feed, a dot and six
    digits follow one another, which is one character, a literal dot and
    exactly six digits; the decode succeeds and the name of the next file
    is absent, because the pattern's [.] takes no line feed. *)
Lemma rotate_line_feed_before_dot_is_no_match :
  trailer_of 16 (packet_of rotate_body_lf 35) = [x0a] ++ bytes_of ".000001"
  /\ file_name_shape ([x0a] ++ bytes_of ".000001")
  /\ exists e p',
       RotateEvent.__init__ 16 0 0 default_kwargs (packet_of rotate_body_lf 35)
       = inr (e, p')
       /\ RotateEvent.position e = 4
       /\ RotateEvent.next_binlog e = None.
Proof.
  split; [reflexivity |]. split.
  - exists [x0a], (bytes_of "000001"). repeat split.
    + discriminate.
    + repeat constructor.
  - eexists. eexists. split; [vm_compute; reflexivity |].
    split; reflexivity.
Qed.

(** C6, amended.  For a RotateEvent whose 8 position bytes and
    [event_size - 8] trailer bytes can be read: the position is the first 8
    bytes read little-endian and all [event_size] bytes are consumed.  When
    no substring of the trailer is made of one or more bytes other than a
    line feed, a dot and six digits, the decode succeeds and the name of
    the next file is absent.  When there is such a substring, the decode
    takes the one that starts first, the longest of those that start there,
    and the name is its UTF-8 decoding; if it is not valid UTF-8 the decode
    raises the decoding error. *)
Theorem rotate_event_next_binlog
    (es : Z) (tm ctl : object_ref) (kw : kwargs) (p : Packet.t) :
  8 <= es <= Z.of_nat (List.length (Packet.buffer p)) ->
  let super :=
    BinLogEvent.mk tm (Packet.event_type p) (Packet.timestamp p) es ctl
      (fail_on_table_metadata_unavailable kw) true true in
  let position := unpack_le (firstn 8 (Packet.buffer p)) in
  ((forall l m r, trailer_of es p = l ++ m ++ r -> ~ re_matches m) ->
   RotateEvent.__init__ es tm ctl kw p
   = inr (RotateEvent.mk super position None, Packet.consume (Z.to_nat es) p))
  /\ ((exists l m r, trailer_of es p = l ++ m ++ r /\ re_matches m) ->
      exists l0 m0 r0,
        trailer_of es p = l0 ++ m0 ++ r0 /\ re_matches m0
        /\ (forall l m r, trailer_of es p = l ++ m ++ r -> re_matches m ->
            (List.length l0 <= List.length l)%nat
            /\ (List.length l = List.length l0 ->
                (List.length m <= List.length m0)%nat))
        /\ RotateEvent.__init__ es tm ctl kw p
           = match decode_utf8 m0 with
             | inr s =>
                 inr (RotateEvent.mk super position (Some s),
                      Packet.consume (Z.to_nat es) p)
             | inl _ => inl UnicodeDecodeError
             end).
Proof.
  intros H super position. subst super position.
  rewrite (rotate_decode es tm ctl kw p H).
  pose proof (findall_head (trailer_of es p) (S (List.length (trailer_of es p)))
                (Nat.lt_succ_diag_r _)) as Hhead.
  fold (findall (trailer_of es p)) in Hhead.
  destruct (findall (trailer_of es p)) as [| m0 ms]; split.
  - reflexivity.
  - intros (l & m & r & E & Hm). exfalso. exact (Hhead l m r E Hm).
  - intros Hnone. exfalso.
    destruct Hhead as (l0 & r0 & E & Hm & _). exact (Hnone l0 m0 r0 E Hm).
  - intros _. destruct Hhead as (l0 & r0 & E & Hm & Hmin).
    exists l0, m0, r0. repeat split; auto; try (now apply (Hmin l m r)).
    destruct (decode_utf8 m0) as [e | s] eqn:Ed; [| reflexivity].
    apply decode_utf8_error in Ed. now subst e.
Qed.

Lemma rotate_event_next_binlog_witness :
  exists l0 m0 r0,
    trailer_of 26 (packet_of rotate_body 45) = l0 ++ m0 ++ r0
    /\ re_matches m0
    /\ (forall l m r,
          trailer_of 26 (packet_of rotate_body 45) = l ++ m ++ r ->
          re_matches m ->
          (List.length l0 <= List.length l)%nat
          /\ (List.length l = List.length l0 ->
              (List.length m <= List.length m0)%nat))
    /\ RotateEvent.__init__ 26 0 0 default_kwargs (packet_of rotate_body 45)
       = match decode_utf8 m0 with
         | inr s =>
             inr (RotateEvent.mk
                    (BinLogEvent.mk 0 0 0 26 0 false true true) 4 (Some s),
                  Packet.consume 26 (packet_of rotate_body 45))
         | inl _ => inl UnicodeDecodeError
         end.
Proof.
  apply (proj2 (rotate_event_next_binlog 26 0 0 default_kwargs
                  (packet_of rotate_body 45)
                  ltac:(vm_compute; split; discriminate))).
  exists [], (bytes_of "mysql-bin.000002"), [x00; x00]. split; [reflexivity |].
  exists (bytes_of "mysql-bin"), (bytes_of "000002").
  repeat split; try discriminate; repeat constructor.
Defined.

(** The two trailers of the specification's examples, and a trailer with
    two candidates: the match runs to the last of them. *)
Example rotate_examples :
  RotateEvent.__init__ 26 0 0 default_kwargs (packet_of rotate_body 45)
  = inr (RotateEvent.mk (BinLogEvent.mk 0 0 0 26 0 false true true) 4
           (Some "mysql-bin.000002"),
         Packet.consume 26 (packet_of rotate_body 45))
  /\ RotateEvent.__init__ 17 0 0 default_kwargs
       (packet_of (zeros 8 ++ bytes_of "mysql-bin") 36)
     = inr (RotateEvent.mk (BinLogEvent.mk 0 0 0 17 0 false true true) 0 None,
            Packet.consume 17 (packet_of (zeros 8 ++ bytes_of "mysql-bin") 36))
  /\ findall (bytes_of "a.000001.000002")
     = [bytes_of "a.000001.000002"].
Proof. repeat split. Qed.

(** ** The keyword arguments *)

(** The only trace that the keyword arguments leave is the stored flag. *)
Lemma construct_kwargs (rt : runtime) (c : event_class) (es : Z)
    (tm ctl : object_ref) (kw : kwargs) (p : Packet.t) :
  construct rt c es tm ctl kw p
  = map_event (with_flag (fail_on_table_metadata_unavailable kw))
      (construct rt c es tm ctl default_kwargs p).
Proof.
  destruct c;
    cbv [construct GtidEvent.__init__ RotateEvent.__init__
         FormatDescriptionEvent.__init__ XidEvent.__init__
         HeartbeatLogEvent.__init__ QueryEvent.__init__
         BeginLoadQueryEvent.__init__ ExecuteLoadQueryEvent.__init__
         IntvarEvent.__init__ NotImplementedEvent.__init__
         BinLogEvent.__init__ bind ret attr advance
         read_uint8 read_uint16 read_uint32];
    repeat match goal with
    | |- context [match read ?n ?q with _ => _ end] =>
        destruct (read n q) as [? | [? ?]]; cbn [map_event]
    | |- context [match lift ?r ?q with _ => _ end] =>
        destruct (lift r q) as [? | [? ?]]; cbn [map_event]
    | |- context [if ?b then _ else _] => destruct b
    end;
    reflexivity.
Qed.

Lemma with_flag_idem (f g : bool) (ev : event) :
  with_flag f (with_flag g ev) = with_flag f ev.
Proof.
  destruct ev as [e | e | e | e | e | e | e | e | e | e | e]; destruct e;
    reflexivity.
Qed.

Lemma base_with_flag (f : bool) (ev : event) :
  BinLogEvent._fail_on_table_metadata_unavailable (base (with_flag f ev)) = f.
Proof.
  destruct ev as [e | e | e | e | e | e | e | e | e | e | e]; destruct e;
    reflexivity.
Qed.

(** C8, as stated, fails: the filter lists are not stored on the event.
    Two constructions that differ only in [only_tables] give the same
    event, so nothing read from the event tells the two lists apart. *)
Lemma filter_lists_are_not_stored :
  only_tables (mk_kwargs (Some ["orders"]) None None None false false)
  <> only_tables default_kwargs
  /\ construct sample_runtime GtidEvent_class 25 0 0
       (mk_kwargs (Some ["orders"]) None None None false false)
       (packet_of gtid_body 44)
     = construct sample_runtime GtidEvent_class 25 0 0 default_kwargs
         (packet_of gtid_body 44)
  /\ (exists ev p',
        construct sample_runtime GtidEvent_class 25 0 0 default_kwargs
          (packet_of gtid_body 44) = inr (ev, p'))
  /\ ~ (exists stored : exn + event * Packet.t -> option (list str),
          stored (construct sample_runtime GtidEvent_class 25 0 0
                    (mk_kwargs (Some ["orders"]) None None None false false)
                    (packet_of gtid_body 44)) = Some ["orders"]
          /\ stored (construct sample_runtime GtidEvent_class 25 0 0
                       default_kwargs (packet_of gtid_body 44)) = None).
Proof.
  split; [discriminate |]. split; [reflexivity |]. split.
  - eexists. eexists. vm_compute. reflexivity.
  - intros (stored & H1 & H2).
    change (construct sample_runtime GtidEvent_class 25 0 0
              (mk_kwargs (Some ["orders"]) None None None false false)
              (packet_of gtid_body 44))
      with (construct sample_runtime GtidEvent_class 25 0 0 default_kwargs
              (packet_of gtid_body 44)) in H1.
    rewrite H2 in H1. discriminate.
Qed.

(** C8, amended.  The filter lists and [freeze_schema] are accepted and
    dropped; the fail-on-missing-metadata flag is stored on the event.
    None of them is interpreted: two constructions that differ only in the
    keyword arguments raise the same exception or leave the packet in the
    same state with events that are equal but for the stored flag, and
    equal altogether when the two flags are. *)
Theorem keyword_arguments_are_not_interpreted
    (rt : runtime) (c : event_class) (es : Z) (tm ctl : object_ref)
    (kw1 kw2 : kwargs) (p : Packet.t) :
  (fail_on_table_metadata_unavailable kw1
   = fail_on_table_metadata_unavailable kw2 ->
   construct rt c es tm ctl kw1 p = construct rt c es tm ctl kw2 p)
  /\ map_event (with_flag false) (construct rt c es tm ctl kw1 p)
     = map_event (with_flag false) (construct rt c es tm ctl kw2 p)
  /\ (forall ev p',
      construct rt c es tm ctl kw1 p = inr (ev, p') ->
      BinLogEvent._fail_on_table_metadata_unavailable (base ev)
      = fail_on_table_metadata_unavailable kw1
      /\ exists ev2,
           construct rt c es tm ctl kw2 p = inr (ev2, p')
           /\ ev2 = with_flag (fail_on_table_metadata_unavailable kw2) ev).
Proof.
  rewrite (construct_kwargs rt c es tm ctl kw1 p).
  rewrite (construct_kwargs rt c es tm ctl kw2 p).
  destruct (construct rt c es tm ctl default_kwargs p) as [e | [ev0 p0]];
    cbn [map_event].
  - repeat split; intros; discriminate.
  - split; [intros ->; reflexivity |]. split.
    + rewrite !with_flag_idem. reflexivity.
    + intros ev p' H. injection H as <- <-. split.
      * apply base_with_flag.
      * eexists. split; [reflexivity |]. now rewrite with_flag_idem.
Qed.

Lemma keyword_arguments_witness :
  construct sample_runtime QueryEvent_class 19 0 0
    (mk_kwargs (Some ["orders"]) None (Some ["shop"]) None true false)
    (packet_of (query_body (bytes_of "BEGIN")) 38)
  = construct sample_runtime QueryEvent_class 19 0 0 default_kwargs
      (packet_of (query_body (bytes_of "BEGIN")) 38).
Proof.
  apply (proj1 (keyword_arguments_are_not_interpreted sample_runtime
                  QueryEvent_class 19 0 0
                  (mk_kwargs (Some ["orders"]) None (Some ["shop"]) None true false)
                  default_kwargs
                  (packet_of (query_body (bytes_of "BEGIN")) 38))).
  reflexivity.
Defined.

(** ** The diagnostic dump *)

(** C7, as stated, fails: the dump of a RotateEvent and of a
    FormatDescriptionEvent has no date, log position or event size line
    either; only the header line, the lines of the class and the blank
    line are printed. *)
Lemma rotate_dump_has_no_preamble :
  exists ev p',
    construct sample_runtime RotateEvent_class 26 0 0 default_kwargs
      (packet_of rotate_body 45) = inr (ev, p')
    /\ dump sample_runtime ev p'
       = [ "=== RotateEvent ==="; "Position: 4";
           "Next binlog file: mysql-bin.000002"; EmptyString ]
    /\ forallb (fun line =>
                  negb (prefix "Date: " line) && negb (prefix "Log position: " line)
                  && negb (prefix "Event size: " line))
         (dump sample_runtime ev p') = true.
Proof.
  eexists. eexists. split; [vm_compute; reflexivity |].
  split; reflexivity.
Qed.

Lemma split_key_sound (line key value : str) :
  split_key line = Some (key, value) ->
  line = (key ++ ": " ++ value)%string.
Proof.
  revert key value.
  induction line as [| c rest IH]; intros key value H; [discriminate |].
  cbn [split_key] in H.
  destruct (Ascii.eqb c ":") eqn:Ec.
  - destruct rest as [| d v].
    + cbn in H. discriminate.
    + destruct (Ascii.eqb d " ") eqn:Ed.
      * injection H as <- <-. apply Ascii.eqb_eq in Ec, Ed. subst.
        reflexivity.
      * destruct (split_key (String d v)) as [[k v'] |]; [| discriminate].
        injection H as <- <-. cbn [fst snd append].
        f_equal. now apply IH.
  - destruct (split_key rest) as [[k v'] |]; [| discriminate].
    injection H as <- <-. cbn [fst snd append].
    f_equal. now apply IH.
Qed.

Lemma key_value_line_found (line key value : str) :
  split_key line = Some (key, value) -> key_value_line line.
Proof.
  intros H. exists key, value. now apply split_key_sound.
Qed.

Ltac key_value_lines :=
  repeat constructor; eapply key_value_line_found; reflexivity.

(** C7, amended.  Every dump starts with the header line of the class and
    ends with one blank line.  For RotateEvent and FormatDescriptionEvent
    only their own two [Key: value] lines stand in between: no date, log
    position, event size or read bytes line.  For every other class the
    date, log position, event size and read bytes lines follow the header,
    then the [Key: value] lines of the class. *)
Theorem dump_lines (rt : runtime) (ev : event) (p : Packet.t) :
  hd_error (dump rt ev p) = Some ("=== " ++ class_name ev ++ " ===")%string
  /\ last (dump rt ev p) "?" = EmptyString
  /\ Forall key_value_line (_dump ev)
  /\ match ev with
     | Rotate e =>
         dump rt ev p
         = [ "=== RotateEvent ===";
             ("Position: " ++ format_d (RotateEvent.position e))%string;
             ("Next binlog file: "
              ++ format_opt_str (RotateEvent.next_binlog e))%string;
             EmptyString ]
     | FormatDescription e =>
         dump rt ev p
         = [ "=== FormatDescriptionEvent ===";
             ("Binlog Version: "
              ++ format_d (FormatDescriptionEvent.binlog_version e))%string;
             ("Server Version: "
              ++ FormatDescriptionEvent.server_version e)%string;
             EmptyString ]
     | _ =>
         dump rt ev p
         = [ ("=== " ++ class_name ev ++ " ===")%string;
             ("Date: " ++ isoformat rt (BinLogEvent.timestamp (base ev)))%string;
             ("Log position: " ++ format_d (Packet.log_pos p))%string;
             ("Event size: "
              ++ format_d (BinLogEvent.event_size (base ev)))%string;
             ("Read bytes: " ++ format_d (Packet.read_bytes p))%string ]
           ++ _dump ev ++ [EmptyString]
     end.
Proof.
  destruct ev; (split; [reflexivity |]); (split; [reflexivity |]);
    (split; [| reflexivity]);
    cbv [_dump GtidEvent._dump XidEvent._dump HeartbeatLogEvent._dump
         QueryEvent._dump BeginLoadQueryEvent._dump
         ExecuteLoadQueryEvent._dump IntvarEvent._dump BinLogEvent._dump app];
    try (constructor; fail); key_value_lines.
Qed.

(** * Further properties of the decoders *)

(** ** Little-endian integers *)

Lemma unpack_le_bound (data : bytes) :
  0 <= unpack_le data < 256 ^ Z.of_nat (List.length data).
Proof.
  induction data as [| b rest IH].
  - cbn. lia.
  - cbn [unpack_le List.length]. rewrite Nat2Z.inj_succ, Z.pow_succ_r by lia.
    pose proof (byte_value_range b). lia.
Qed.

Lemma unpack_le_read_bound (w : Z) (l : bytes) :
  0 <= w <= Z.of_nat (List.length l) ->
  0 <= unpack_le (firstn (Z.to_nat w) l) < 256 ^ w.
Proof.
  intros H. pose proof (unpack_le_bound (firstn (Z.to_nat w) l)) as Hb.
  rewrite length_firstn in Hb.
  replace (Z.of_nat (Nat.min (Z.to_nat w) (List.length l))) with w in Hb by lia.
  exact Hb.
Qed.

Lemma unpack_le_app (a b : bytes) :
  unpack_le (a ++ b)
  = unpack_le a + 256 ^ Z.of_nat (List.length a) * unpack_le b.
Proof.
  induction a as [| x a IH].
  - cbn [app unpack_le List.length]. change (256 ^ Z.of_nat 0) with 1.
    destruct (unpack_le b); reflexivity.
  - cbn [app unpack_le List.length]. rewrite IH, Nat2Z.inj_succ, Z.pow_succ_r by lia.
    ring.
Qed.

Lemma read_inl (n : Z) (p : Packet.t) (e : exn) :
  read n p = inl e -> e = TruncatedPacket.
Proof.
  unfold read. destruct (_ && _); intros H; inversion H. reflexivity.
Qed.

(** ** The table id *)

(** X1.  [_read_table_id] gives the 6 bytes it reads as a little-endian number
    below 2^48 and consumes those 6 bytes; with fewer than 6 bytes left it
    fails as a short read. *)
Theorem read_table_id_value (p : Packet.t) :
  ((6 <= List.length (Packet.buffer p))%nat ->
   BinLogEvent._read_table_id p
   = inr (unpack_le (firstn 6 (Packet.buffer p)), Packet.consume 6 p)
   /\ 0 <= unpack_le (firstn 6 (Packet.buffer p)) < 2 ^ 48)
  /\ ((List.length (Packet.buffer p) < 6)%nat ->
      BinLogEvent._read_table_id p = inl TruncatedPacket).
Proof.
  split; intros H; unfold BinLogEvent._read_table_id, bind.
  - rewrite read_ok by lia. unfold ret.
    change (Z.to_nat 6) with 6%nat. split.
    + f_equal. f_equal. rewrite unpack_le_app.
      change (unpack_le (int2byte 0 ++ int2byte 0)) with 0. lia.
    + pose proof (unpack_le_read_bound 6 (Packet.buffer p) ltac:(lia)) as Hb.
      change (Z.to_nat 6) with 6%nat in Hb.
      change (256 ^ 6) with (2 ^ 48) in Hb. exact Hb.
  - rewrite read_fails by lia. reflexivity.
Qed.

Lemma read_table_id_witness :
  BinLogEvent._read_table_id
    (packet_of [x2a; x01; x00; x00; x00; x00; xff] 0)
  = inr (298, Packet.consume 6 (packet_of [x2a; x01; x00; x00; x00; x00; xff] 0)).
Proof.
  refine (proj1 (proj1 (read_table_id_value
                          (packet_of [x2a; x01; x00; x00; x00; x00; xff] 0)) _)).
  simpl. lia.
Defined.

(** ** Fixed-size events: short packets *)

(** One read of an unsigned integer, after [k] bytes. *)
Lemma read_uint_after (w : Z) (k : nat) (p : Packet.t) :
  0 <= w ->
  (k + Z.to_nat w <= List.length (Packet.buffer p))%nat ->
  (b <- read w ;; ret (unpack_le b)) (Packet.consume k p)
  = inr (unpack_le (firstn (Z.to_nat w) (skipn k (Packet.buffer p))),
         Packet.consume (k + Z.to_nat w) p).
Proof.
  intros Hw Hk. unfold bind. rewrite read_after by assumption. reflexivity.
Qed.

Ltac run_uint :=
  unfold bind at 1;
  first [ rewrite (read_uint_after 1) by (simpl; lia)
        | rewrite (read_uint_after 2) by (simpl; lia)
        | rewrite (read_uint_after 4) by (simpl; lia) ];
  literal_widths.

Lemma execute_load_query_decode (es : Z) (tm ctl : object_ref) (kw : kwargs)
    (p : Packet.t) :
  (26 <= List.length (Packet.buffer p))%nat ->
  let field w k := unpack_le (firstn w (skipn k (Packet.buffer p))) in
  ExecuteLoadQueryEvent.__init__ es tm ctl kw p
  = inr (ExecuteLoadQueryEvent.mk
           (BinLogEvent.mk tm (Packet.event_type p) (Packet.timestamp p) es ctl
              (fail_on_table_metadata_unavailable kw) true true)
           (field 4 0) (field 4 4) (field 1 8) (field 2 9) (field 2 11)
           (field 4 13) (field 4 17) (field 4 21) (field 1 25),
         Packet.consume 26 p)%nat.
Proof.
  intros H field. subst field. unfold ExecuteLoadQueryEvent.__init__.
  unfold read_uint8, read_uint16, read_uint32.
  start_run p. do 9 run_uint. reflexivity.
Qed.

(** A constructor that only reads fails only as a short read. *)
Ltac only_truncated E :=
  cbv [bind ret attr BinLogEvent.__init__ read_uint8 read_uint16 read_uint32
       advance] in E;
  repeat match type of E with
  | context [match read ?n ?q with _ => _ end] =>
      let Hr := fresh "Hr" in
      destruct (read n q) as [? | [? ?]] eqn:Hr;
      [ apply read_inl in Hr; inversion E; subst; reflexivity | ]
  end;
  try discriminate E.

(** Bounds of the reads of a successful run, in terms of the packet. *)
Ltac run_bounds H :=
  split_run H; forget_values; subst;
  rewrite ?consume_consume, ?buffer_consume, ?length_skipn in *.

(** X2.  A GtidEvent, an XidEvent, an IntvarEvent and an ExecuteLoadQueryEvent are
    constructed exactly when the packet still holds 25, 8, 5 and 26 bytes;
    from a shorter packet the constructor raises the short-read failure and
    returns no event. *)
Theorem fixed_size_events_need_their_bytes
    (es : Z) (tm ctl : object_ref) (kw : kwargs) (p : Packet.t) :
  let len := List.length (Packet.buffer p) in
  ((exists r, GtidEvent.__init__ es tm ctl kw p = inr r) <-> (25 <= len)%nat)
  /\ ((len < 25)%nat ->
      GtidEvent.__init__ es tm ctl kw p = inl TruncatedPacket)
  /\ ((exists r, XidEvent.__init__ es tm ctl kw p = inr r) <-> (8 <= len)%nat)
  /\ ((len < 8)%nat ->
      XidEvent.__init__ es tm ctl kw p = inl TruncatedPacket)
  /\ ((exists r, IntvarEvent.__init__ es tm ctl kw p = inr r) <-> (5 <= len)%nat)
  /\ ((len < 5)%nat ->
      IntvarEvent.__init__ es tm ctl kw p = inl TruncatedPacket)
  /\ ((exists r, ExecuteLoadQueryEvent.__init__ es tm ctl kw p = inr r)
      <-> (26 <= len)%nat)
  /\ ((len < 26)%nat ->
      ExecuteLoadQueryEvent.__init__ es tm ctl kw p = inl TruncatedPacket).
Proof.
  intros len. subst len.
  assert (Hg : forall r, GtidEvent.__init__ es tm ctl kw p = inr r ->
                         (25 <= List.length (Packet.buffer p))%nat).
  { intros [e p'] H. unfold GtidEvent.__init__ in H. run_bounds H. lia. }
  assert (Hx : forall r, XidEvent.__init__ es tm ctl kw p = inr r ->
                         (8 <= List.length (Packet.buffer p))%nat).
  { intros [e p'] H. unfold XidEvent.__init__ in H. run_bounds H. lia. }
  assert (Hi : forall r, IntvarEvent.__init__ es tm ctl kw p = inr r ->
                         (5 <= List.length (Packet.buffer p))%nat).
  { intros [e p'] H. unfold IntvarEvent.__init__ in H. run_bounds H. lia. }
  assert (He : forall r, ExecuteLoadQueryEvent.__init__ es tm ctl kw p = inr r ->
                         (26 <= List.length (Packet.buffer p))%nat).
  { intros [e p'] H. unfold ExecuteLoadQueryEvent.__init__ in H.
    run_bounds H. lia. }
  repeat split.
  - intros (r & H). eauto.
  - intros H. eexists. now apply gtid_decode.
  - intros H. destruct (GtidEvent.__init__ es tm ctl kw p) as [e | r] eqn:E.
    + unfold GtidEvent.__init__ in E. only_truncated E.
    + pose proof (Hg r eq_refl). lia.
  - intros (r & H). eauto.
  - intros H. eexists. now apply xid_decode.
  - intros H. destruct (XidEvent.__init__ es tm ctl kw p) as [e | r] eqn:E.
    + unfold XidEvent.__init__ in E. only_truncated E.
    + pose proof (Hx r eq_refl). lia.
  - intros (r & H). eauto.
  - intros H. eexists. now apply intvar_decode.
  - intros H. destruct (IntvarEvent.__init__ es tm ctl kw p) as [e | r] eqn:E.
    + unfold IntvarEvent.__init__ in E. only_truncated E.
    + pose proof (Hi r eq_refl). lia.
  - intros (r & H). eauto.
  - intros H. eexists. now apply execute_load_query_decode.
  - intros H.
    destruct (ExecuteLoadQueryEvent.__init__ es tm ctl kw p) as [e | r] eqn:E.
    + unfold ExecuteLoadQueryEvent.__init__ in E. only_truncated E.
    + pose proof (He r eq_refl). lia.
Qed.

Lemma fixed_size_events_need_their_bytes_witness :
  GtidEvent.__init__ 25 0 0 default_kwargs (packet_of (zeros 24) 44)
  = inl TruncatedPacket.
Proof.
  refine (proj1 (proj2 (fixed_size_events_need_their_bytes 25 0 0
                          default_kwargs (packet_of (zeros 24) 44))) _).
  simpl. lia.
Defined.

(** ** The ranges of the decoded fields *)

Lemma uint_read (bits w : Z) (l : bytes) :
  bits = 8 * w ->
  0 <= w <= Z.of_nat (List.length l) ->
  uint bits (unpack_le (firstn (Z.to_nat w) l)).
Proof.
  intros -> H. unfold uint.
  pose proof (unpack_le_read_bound w l H) as Hb.
  replace (2 ^ (8 * w)) with (256 ^ w); [exact Hb |].
  change 256 with (2 ^ 8). rewrite <- Z.pow_mul_r by lia. reflexivity.
Qed.

Ltac field_ranges :=
  repeat match goal with
  | |- _ /\ _ => split
  | |- uint _ (byte2int _) => unfold byte2int
  | |- uint _ (unpack_le (firstn (Z.to_nat _) _)) =>
      apply uint_read; [reflexivity | assumption]
  | |- List.length (firstn _ _) = _ => rewrite length_firstn; lia
  | |- Z.of_nat (List.length (firstn _ _)) = _ => rewrite length_firstn; lia
  | |- Z.of_nat (List.length (firstn _ _)) + _ = _ =>
      rewrite length_firstn; lia
  end.

(** X3.  In every event that a class of the module constructs, each integer
    field lies in the unsigned range of the width it was read with (8, 16,
    32 or 64 bits), a GtidEvent has a 16-byte source id, the status
    variables and the schema of a QueryEvent have the lengths that its
    length fields state, and the block of a BeginLoadQueryEvent is 4 bytes
    shorter than the declared size. *)
Theorem constructed_fields_in_range
    (rt : runtime) (c : event_class) (es : Z) (tm ctl : object_ref)
    (kw : kwargs) (p : Packet.t) (ev : event) (p' : Packet.t) :
  construct rt c es tm ctl kw p = inr (ev, p') ->
  fields_in_range ev.
Proof.
  intros H. destruct c; unfold construct in H.
  - unfold GtidEvent.__init__ in H. split_run H. subst.
    cbn [fields_in_range GtidEvent.sid GtidEvent.gno]. field_ranges.
  - unfold RotateEvent.__init__ in H. split_run H. subst.
    cbn [fields_in_range RotateEvent.position]. field_ranges.
  - unfold FormatDescriptionEvent.__init__ in H. split_run H.
    match goal with
    | Hr : (if is_checksum_supported rt ?v then _ else _) _ = inr _ |- _ =>
        destruct (is_checksum_supported rt v); split_run Hr
    end; subst;
      cbn [fields_in_range FormatDescriptionEvent.binlog_version];
      field_ranges.
  - split_run H. subst. exact I.
  - unfold XidEvent.__init__ in H. split_run H. subst.
    cbn [fields_in_range XidEvent.xid]. field_ranges.
  - unfold HeartbeatLogEvent.__init__ in H. split_run H. subst. exact I.
  - unfold QueryEvent.__init__ in H. split_run H. subst.
    cbn [fields_in_range QueryEvent.slave_proxy_id QueryEvent.execution_time
         QueryEvent.schema_length QueryEvent.error_code
         QueryEvent.status_vars_length QueryEvent.status_vars
         QueryEvent.schema].
    field_ranges.
  - unfold BeginLoadQueryEvent.__init__ in H. split_run H. subst.
    cbn [fields_in_range BeginLoadQueryEvent.file_id
         BeginLoadQueryEvent.block_data BeginLoadQueryEvent.base
         BinLogEvent.event_size].
    field_ranges.
  - unfold ExecuteLoadQueryEvent.__init__ in H. split_run H. subst.
    cbn [fields_in_range ExecuteLoadQueryEvent.slave_proxy_id
         ExecuteLoadQueryEvent.execution_time
         ExecuteLoadQueryEvent.schema_length ExecuteLoadQueryEvent.error_code
         ExecuteLoadQueryEvent.status_vars_length
         ExecuteLoadQueryEvent.file_id ExecuteLoadQueryEvent.start_pos
         ExecuteLoadQueryEvent.end_pos
         ExecuteLoadQueryEvent.dup_handling_flags].
    field_ranges.
  - unfold IntvarEvent.__init__ in H. split_run H. subst.
    cbn [fields_in_range IntvarEvent.type IntvarEvent.value]. field_ranges.
  - unfold NotImplementedEvent.__init__ in H. split_run H. subst. exact I.
Qed.

Lemma constructed_fields_in_range_witness :
  exists ev p',
    construct sample_runtime QueryEvent_class 19 0 0 default_kwargs
      (packet_of (query_body (bytes_of "BEGIN")) 38) = inr (ev, p')
    /\ fields_in_range ev.
Proof.
  eexists. eexists. split.
  - vm_compute. reflexivity.
  - eapply (constructed_fields_in_range sample_runtime QueryEvent_class 19 0 0
              default_kwargs (packet_of (query_body (bytes_of "BEGIN")) 38)).
    vm_compute. reflexivity.
Defined.

(** ** QueryEvent: the layout of a decoded event *)

Ltac literal_widths_everywhere :=
  repeat match goal with
  | H : context [Z.to_nat (Zpos ?x)] |- _ =>
      let n := eval compute in (Z.to_nat (Zpos x)) in
      change (Z.to_nat (Zpos x)) with n in H
  end;
  cbn [Nat.add] in *.

(** A QueryEvent is constructed only from a packet that holds its fixed
    part and the two fields of variable length. *)
Lemma query_inr_fields (detect : bytes -> option str) (codecs : codec_registry)
    (es : Z) (tm ctl : object_ref) (kw : kwargs) (p : Packet.t)
    (r : QueryEvent.t * Packet.t) :
  QueryEvent.__init__ detect codecs es tm ctl kw p = inr r ->
  14 + status_vars_length_of p + schema_length_of p
  <= Z.of_nat (List.length (Packet.buffer p)).
Proof.
  destruct r as [e p']. intros H.
  unfold QueryEvent.__init__ in H. split_run H.
  subst. rewrite ?consume_consume, ?buffer_consume, ?length_skipn in *.
  literal_widths_everywhere.
  unfold status_vars_length_of, schema_length_of. lia.
Qed.

(** X4.  A QueryEvent that is constructed satisfies
    14 + status_vars_length + schema_length <= event_size <= bytes held: the
    two length fields are those found at offsets 11 and 8, the status
    variables and the schema are the bytes that follow the 13-byte
    post-header, and the query is what [_decode_query] makes of the bytes
    after the separator up to the declared size. *)
Theorem query_event_layout
    (detect : bytes -> option str) (codecs : codec_registry)
    (es : Z) (tm ctl : object_ref) (kw : kwargs) (p : Packet.t)
    (e : QueryEvent.t) (p' : Packet.t) :
  QueryEvent.__init__ detect codecs es tm ctl kw p = inr (e, p') ->
  let svl := status_vars_length_of p in
  let sl := schema_length_of p in
  QueryEvent.status_vars_length e = svl
  /\ QueryEvent.schema_length e = sl
  /\ 14 + svl + sl <= es <= Z.of_nat (List.length (Packet.buffer p))
  /\ QueryEvent.status_vars e
     = firstn (Z.to_nat svl) (skipn 13 (Packet.buffer p))
  /\ QueryEvent.schema e
     = firstn (Z.to_nat sl) (skipn (13 + Z.to_nat svl) (Packet.buffer p))
  /\ QueryEvent._decode_query detect codecs
       (firstn (Z.to_nat (es - 14 - svl - sl))
          (skipn (Z.to_nat (14 + svl + sl)) (Packet.buffer p)))
     = inr (QueryEvent.query e)
  /\ p' = Packet.consume (Z.to_nat es) p.
Proof.
  intros H svl sl.
  pose proof (query_inr_fields _ _ _ _ _ _ _ _ H) as Hlen.
  fold svl sl in Hlen.
  pose proof (byte2int_nonneg (firstn 1 (skipn 8 (Packet.buffer p)))) as Hsl.
  pose proof (unpack_le_nonneg (firstn 2 (skipn 11 (Packet.buffer p)))) as Hsvl.
  fold (schema_length_of p) in Hsl. fold (status_vars_length_of p) in Hsvl.
  fold sl in Hsl. fold svl in Hsvl.
  rewrite (query_decode_tail detect codecs es tm ctl kw p Hlen) in H.
  cbv zeta in H. fold svl sl in H.
  split_run H. subst e p'.
  rewrite buffer_consume, length_skipn in *.
  cbn [QueryEvent.status_vars_length QueryEvent.schema_length
       QueryEvent.status_vars QueryEvent.schema QueryEvent.query].
  repeat split; try reflexivity; try lia.
  - subst.
    match goal with
    | Hd : QueryEvent._decode_query _ _ _ = inr _ |- _ => rewrite <- Hd
    end.
    f_equal. f_equal. lia.
  - subst. rewrite consume_consume. f_equal. lia.
Qed.

Lemma query_event_layout_witness :
  exists e p',
    QueryEvent.__init__ detect_latin1 sample_codecs 19 0 0 default_kwargs
      (packet_of (query_body (bytes_of "BEGIN")) 38) = inr (e, p')
    /\ 14 + 0 + 0 <= 19 <= 19
    /\ QueryEvent.query e = Str "BEGIN"
    /\ p' = Packet.consume 19 (packet_of (query_body (bytes_of "BEGIN")) 38).
Proof.
  eexists. eexists. split; [vm_compute; reflexivity |].
  split; [lia |]. split; [reflexivity |].
  unshelve eapply (proj2 (proj2 (proj2 (proj2 (proj2 (proj2
            (query_event_layout detect_latin1 sample_codecs 19 0 0
               default_kwargs (packet_of (query_body (bytes_of "BEGIN")) 38)
               _ _ _)))))));
    [ | vm_compute; reflexivity ].
Defined.

(** ** QueryEvent: what [_decode_query] can give *)

(** X5.  [_decode_query] raises only when the bytes are not valid UTF-8 and the
    detector suggests a name that the codec registry does not know, and then
    it raises the lookup failure.  When it returns bytes they are its
    argument, unchanged.  When it returns a str, the argument was not empty
    and the str is its strict UTF-8 decoding or, failing that, its decoding
    under the suggested encoding. *)
Theorem decode_query_outcomes
    (detect : bytes -> option str) (codecs : codec_registry) (query : bytes) :
  (forall e,
      QueryEvent._decode_query detect codecs query = inl e ->
      e = LookupError /\ query <> [] /\ valid_utf8 query = false
      /\ exists name, detect query = Some name /\ codecs name = None)
  /\ (forall b,
      QueryEvent._decode_query detect codecs query = inr (Bytes b) ->
      b = query)
  /\ (forall s,
      QueryEvent._decode_query detect codecs query = inr (Str s) ->
      query <> []
      /\ ((valid_utf8 query = true /\ s = string_of_list_byte query)
          \/ (valid_utf8 query = false
              /\ exists name decoder,
                   detect query = Some name /\ codecs name = Some decoder
                   /\ decoder query = Some s))).
Proof.
  unfold QueryEvent._decode_query, decode_utf8, bytes_decode.
  destruct query as [| b0 rest].
  - repeat split; intros; try discriminate; congruence.
  - destruct (valid_utf8 (b0 :: rest)) eqn:Hv; cbn [ebind try_except is_UnicodeError].
    + repeat split; intros; try discriminate.
      left. split; congruence.
    + destruct (detect (b0 :: rest)) as [name |] eqn:Hd;
        cbn [ebind try_except is_TypeError_or_UnicodeError].
      * destruct (codecs name) as [decoder |] eqn:Hc;
          cbn [ebind try_except is_TypeError_or_UnicodeError].
        -- destruct (decoder (b0 :: rest)) as [s' |] eqn:Hs;
             cbn [ebind try_except is_TypeError_or_UnicodeError];
             repeat split; intros; try discriminate; try congruence.
           right. split; [reflexivity |]. exists name, decoder.
           repeat split; congruence.
        -- repeat split; intros; try discriminate; try congruence.
           exists name. auto.
      * repeat split; intros; try discriminate; congruence.
Qed.

Lemma decode_query_outcomes_witness :
  LookupError = LookupError /\ [xe9] <> [] /\ valid_utf8 [xe9] = false
  /\ exists name, detect_euc_tw [xe9] = Some name /\ sample_codecs name = None.
Proof.
  refine (proj1 (decode_query_outcomes detect_euc_tw sample_codecs [xe9])
            LookupError _).
  reflexivity.
Defined.

Lemma ascii_valid_utf8 (data : bytes) :
  forallb (fun b => byte_value b <? 128) data = true -> valid_utf8 data = true.
Proof.
  induction data as [| b rest IH]; [reflexivity |].
  cbn [forallb valid_utf8]. rewrite andb_true_iff. intros (Hb & Hr).
  rewrite Hb. now apply IH.
Qed.

(** X6.  Query bytes that are not empty and all below 128 come back as the str
    of the same characters, whatever the detector and the codec registry
    are: neither is consulted. *)
Theorem decode_query_ascii
    (detect : bytes -> option str) (codecs : codec_registry) (query : bytes) :
  query <> [] ->
  forallb (fun b => byte_value b <? 128) query = true ->
  QueryEvent._decode_query detect codecs query
  = inr (Str (string_of_list_byte query))
  /\ list_byte_of_string (string_of_list_byte query) = query.
Proof.
  intros Hne Ha. apply ascii_valid_utf8 in Ha. split.
  - unfold QueryEvent._decode_query, decode_utf8.
    destruct query; [congruence |]. rewrite Ha. reflexivity.
  - apply list_byte_of_string_of_list_byte.
Qed.

Lemma decode_query_ascii_witness :
  QueryEvent._decode_query detect_euc_tw sample_codecs (bytes_of "COMMIT")
  = inr (Str "COMMIT").
Proof.
  refine (proj1 (decode_query_ascii detect_euc_tw sample_codecs
                   (bytes_of "COMMIT") _ _)).
  - discriminate.
  - reflexivity.
Defined.

(** ** RotateEvent: the file name that is found *)

(** X7.  A name that a decoded RotateEvent carries is valid UTF-8 made of a
    non-empty stem without line feed, a dot and six ASCII digits (so at
    least 8 bytes), and it is a substring of the trailer; the name is absent
    from a decoded event exactly when the trailer has no such substring. *)
Theorem rotate_name_shape
    (es : Z) (tm ctl : object_ref) (kw : kwargs) (p : Packet.t)
    (e : RotateEvent.t) (p' : Packet.t) :
  RotateEvent.__init__ es tm ctl kw p = inr (e, p') ->
  (RotateEvent.next_binlog e = None <->
   forall l m r, trailer_of es p = l ++ m ++ r -> ~ re_matches m)
  /\ forall s,
       RotateEvent.next_binlog e = Some s ->
       exists l m r,
         trailer_of es p = l ++ m ++ r /\ re_matches m
         /\ valid_utf8 m = true /\ s = string_of_list_byte m
         /\ (8 <= List.length m)%nat.
Proof.
  intros H. pose proof (rotate_inr_bounds _ _ _ _ _ _ _ H) as Hb.
  rewrite (rotate_decode es tm ctl kw p Hb) in H.
  pose proof (findall_head (trailer_of es p) (S (List.length (trailer_of es p)))
                (Nat.lt_succ_diag_r _)) as Hhead.
  fold (findall (trailer_of es p)) in Hhead.
  destruct (findall (trailer_of es p)) as [| m0 ms].
  - injection H as <- <-. cbn [RotateEvent.next_binlog]. split.
    + split; auto.
    + intros s Hs. discriminate.
  - destruct Hhead as (l0 & r0 & E & Hm & _).
    unfold decode_utf8 in H. destruct (valid_utf8 m0) eqn:Hv; [| discriminate].
    injection H as <- <-. cbn [RotateEvent.next_binlog]. split.
    + split; [discriminate |]. intros Hnone. exfalso.
      exact (Hnone l0 m0 r0 E Hm).
    + intros s Hs. injection Hs as <-. exists l0, m0, r0.
      repeat split; auto.
      destruct Hm as (pre & ds & -> & Hne & _ & Hlen & _).
      rewrite length_app. cbn [List.length]. rewrite Hlen.
      destruct pre; [congruence |]. cbn [List.length]. lia.
Qed.

Lemma rotate_name_shape_witness :
  exists e p',
    RotateEvent.__init__ 26 0 0 default_kwargs (packet_of rotate_body 45)
    = inr (e, p')
    /\ exists l m r,
         trailer_of 26 (packet_of rotate_body 45) = l ++ m ++ r
         /\ re_matches m /\ valid_utf8 m = true
         /\ "mysql-bin.000002" = string_of_list_byte m
         /\ (8 <= List.length m)%nat.
Proof.
  eexists. eexists. split; [vm_compute; reflexivity |].
  eapply (proj2 (rotate_name_shape 26 0 0 default_kwargs
                   (packet_of rotate_body 45) _ _ ltac:(vm_compute; reflexivity))).
  reflexivity.
Defined.

Lemma re_matches_ends_with_digit (m : bytes) :
  re_matches m -> exists body d, m = body ++ [d] /\ re_digit d = true.
Proof.
  intros (pre & ds & -> & _ & _ & Hlen & Hd).
  do 6 (destruct ds as [| ? ds]; [discriminate |]).
  destruct ds; [| discriminate].
  exists (pre ++ "."%byte :: [b; b0; b1; b2; b3]), b4. split.
  - rewrite <- app_assoc. reflexivity.
  - do 5 (apply Forall_inv_tail in Hd). now apply Forall_inv in Hd.
Qed.

(** No match runs past a file name into bytes that hold no digit. *)
Lemma no_match_into_padding (m pad m' r' : bytes) :
  m ++ pad = m' ++ r' ->
  Forall (fun b => re_digit b = false) pad ->
  re_matches m' ->
  (List.length m' <= List.length m)%nat.
Proof.
  intros E Hpad Hm'.
  destruct (Nat.le_gt_cases (List.length m') (List.length m)) as [Hle | Hgt];
    [exact Hle | exfalso].
  apply app_eq_app in E. destruct E as (j & [(E1 & E2) | (E1 & E2)]).
  - subst m. rewrite length_app in Hgt. lia.
  - subst m' pad.
    destruct (exists_last (l := j)) as (j' & x & ->).
    { intros ->. rewrite app_nil_r in Hgt. lia. }
    apply re_matches_ends_with_digit in Hm'.
    destruct Hm' as (body & d & E & Hd).
    rewrite app_assoc in E. apply app_inj_tail in E. destruct E as (_ & <-).
    rewrite Forall_app in Hpad. destruct Hpad as (Hj & _).
    rewrite Forall_app in Hj. destruct Hj as (_ & Hx).
    apply Forall_inv in Hx. congruence.
Qed.

(** X8.  When the trailer of a RotateEvent is a file name (a stem without line
    feed, a dot, six digits) followed by any bytes none of which is a digit
    (NUL padding, or nothing), and the name is valid UTF-8, the decoded event
    carries exactly that name. *)
Theorem rotate_name_then_padding
    (es : Z) (tm ctl : object_ref) (kw : kwargs) (p : Packet.t)
    (stem ds pad : bytes) :
  8 <= es <= Z.of_nat (List.length (Packet.buffer p)) ->
  trailer_of es p = (stem ++ "."%byte :: ds) ++ pad ->
  stem <> [] ->
  Forall (fun c => re_any c = true) stem ->
  List.length ds = 6%nat ->
  Forall (fun d => re_digit d = true) ds ->
  Forall (fun b => re_digit b = false) pad ->
  valid_utf8 (stem ++ "."%byte :: ds) = true ->
  RotateEvent.__init__ es tm ctl kw p
  = inr (RotateEvent.mk
           (BinLogEvent.mk tm (Packet.event_type p) (Packet.timestamp p) es ctl
              (fail_on_table_metadata_unavailable kw) true true)
           (unpack_le (firstn 8 (Packet.buffer p)))
           (Some (string_of_list_byte (stem ++ "."%byte :: ds))),
         Packet.consume (Z.to_nat es) p).
Proof.
  intros Hb Et Hne Hstem Hlen Hds Hpad Hv.
  rewrite (rotate_decode es tm ctl kw p Hb).
  set (m := stem ++ "."%byte :: ds) in *.
  assert (Hm : re_matches m) by (exists stem, ds; repeat split; auto).
  assert (Hshape : match_shape (trailer_of es p) (List.length m))
    by (exists m, pad; auto).
  unfold findall. cbn [findall_from].
  pose proof (re_match_spec (trailer_of es p)) as Hspec.
  destruct (re_match (trailer_of es p)) as [n |].
  - destruct Hspec as ((m' & r' & E' & Hm' & Hn) & Hmax).
    assert (Hle : (List.length m' <= List.length m)%nat).
    { apply (no_match_into_padding m pad m' r'); auto. congruence. }
    apply Hmax in Hshape.
    assert (Hfirst : firstn n (trailer_of es p) = m).
    { rewrite Et. replace n with (List.length m) by lia.
      apply firstn_length_app. }
    rewrite Hfirst. unfold decode_utf8. rewrite Hv. reflexivity.
  - exfalso. exact (Hspec _ Hshape).
Qed.

Lemma rotate_name_then_padding_witness :
  RotateEvent.__init__ 26 0 0 default_kwargs (packet_of rotate_body 45)
  = inr (RotateEvent.mk (BinLogEvent.mk 0 0 0 26 0 false true true) 4
           (Some "mysql-bin.000002"),
         Packet.consume 26 (packet_of rotate_body 45)).
Proof.
  refine (rotate_name_then_padding 26 0 0 default_kwargs
            (packet_of rotate_body 45)
            (bytes_of "mysql-bin") (bytes_of "000002") [x00; x00]
            _ _ _ _ _ _ _ _).
  - vm_compute. split; discriminate.
  - reflexivity.
  - discriminate.
  - repeat constructor.
  - reflexivity.
  - repeat constructor.
  - repeat constructor.
  - reflexivity.
Defined.

(** ** FormatDescriptionEvent: the server version *)

Lemma rstrip_nul_zeros (k : nat) : rstrip_nul (repeat x00 k) = [].
Proof.
  induction k as [| k IH]; [reflexivity |].
  cbn [repeat rstrip_nul]. rewrite IH. reflexivity.
Qed.

Lemma rstrip_nul_padding (v : bytes) (k : nat) :
  rstrip_nul (v ++ repeat x00 k) = rstrip_nul v.
Proof.
  induction v as [| b rest IH].
  - cbn [app]. apply rstrip_nul_zeros.
  - cbn [app rstrip_nul]. rewrite IH. reflexivity.
Qed.

Lemma rstrip_nul_no_nul (v : bytes) :
  Forall (fun b => b <> x00) v -> rstrip_nul v = v.
Proof.
  induction v as [| b rest IH]; [reflexivity |].
  intros H. inversion H as [| ? ? Hb Hr]; subst.
  cbn [rstrip_nul]. rewrite (IH Hr).
  destruct rest; [| reflexivity].
  destruct (Byte.eqb b x00) eqn:E; [| reflexivity].
  apply Byte.byte_dec_bl in E. contradiction.
Qed.

Lemma rstrip_nul_no_trailing_nul (v : bytes) :
  forall body last, rstrip_nul v = body ++ [last] -> last <> x00.
Proof.
  induction v as [| b rest IH]; intros body last H.
  - destruct body; discriminate.
  - cbn [rstrip_nul] in H. destruct (rstrip_nul rest) as [| c t] eqn:Er.
    + destruct (Byte.eqb b x00) eqn:E.
      * destruct body; discriminate.
      * destruct body as [| ? [| ? ?]]; try discriminate.
        injection H as <-. now apply Byte.eqb_false.
    + destruct body as [| b' body'].
      * discriminate.
      * injection H as <- H. now apply (IH body').
Qed.

Lemma string_of_list_byte_length (l : bytes) :
  String.length (string_of_list_byte l) = List.length l.
Proof.
  induction l as [| b r IH]; [reflexivity |].
  cbn. f_equal. exact IH.
Qed.

(** X9.  A server version without NUL byte that is written into the 50-byte
    field and padded with NUL bytes comes back as written; and whatever the
    50 bytes are, the bytes of the decoded version never end with a NUL. *)
Theorem format_description_version_round_trip
    (policy : str -> bool) (es : Z) (tm ctl : object_ref) (kw : kwargs)
    (p : Packet.t) (e : FormatDescriptionEvent.t) (p' : Packet.t) :
  FormatDescriptionEvent.__init__ policy es tm ctl kw p = inr (e, p') ->
  (forall v k,
      firstn 50 (skipn 2 (Packet.buffer p)) = v ++ repeat x00 k ->
      Forall (fun b => b <> x00) v ->
      FormatDescriptionEvent.server_version e = string_of_list_byte v)
  /\ (forall body last,
      list_byte_of_string (FormatDescriptionEvent.server_version e)
      = body ++ [last] ->
      last <> x00)
  /\ (String.length (FormatDescriptionEvent.server_version e) <= 50)%nat.
Proof.
  intros H. apply format_description_inr in H.
  destruct H as (Hsv & Hlen & _). unfold decode_utf8 in Hsv.
  destruct (valid_utf8 (version_bytes p)); [| discriminate].
  injection Hsv as Hsv. rewrite <- Hsv. unfold version_bytes.
  split; [| split].
  - intros v k Ev Hv. rewrite Ev, rstrip_nul_padding, rstrip_nul_no_nul; auto.
  - intros body last E. rewrite list_byte_of_string_of_list_byte in E.
    now apply rstrip_nul_no_trailing_nul in E.
  - rewrite string_of_list_byte_length.
    assert (Hle : forall l, (List.length (rstrip_nul l) <= List.length l)%nat).
    { induction l as [| b r IH]; [cbn; lia |].
      cbn [rstrip_nul]. destruct (rstrip_nul r).
      - destruct (Byte.eqb b x00); cbn; lia.
      - cbn [List.length] in *. lia. }
    etransitivity; [apply Hle |]. rewrite length_firstn. lia.
Qed.

Lemma format_description_version_witness :
  exists e p',
    FormatDescriptionEvent.__init__ sample_policy 80 0 0 default_kwargs
      (packet_of (fde_body "5.6.24-log" x01) 99) = inr (e, p')
    /\ FormatDescriptionEvent.server_version e
       = string_of_list_byte (bytes_of "5.6.24-log").
Proof.
  eexists. eexists. split; [vm_compute; reflexivity |].
  eapply (proj1 (format_description_version_round_trip sample_policy 80 0 0
                   default_kwargs (packet_of (fde_body "5.6.24-log" x01) 99)
                   _ _ ltac:(vm_compute; reflexivity))
            (bytes_of "5.6.24-log") 40%nat).
  - reflexivity.
  - repeat constructor; discriminate.
Defined.

(** ** The exceptions that leave a constructor *)

Lemma lift_inl {A} (r : exn + A) (p : Packet.t) (e : exn) :
  lift r p = inl e -> r = inl e.
Proof.
  unfold lift. destruct r; intros H; inversion H. reflexivity.
Qed.

Lemma rotate_name_raises (l : list bytes) (e : exn) :
  try_except
    (ebind (getitem0 l) (fun m =>
     ebind (decode_utf8 m) (fun s => inr (Some s))))
    is_IndexError (inr None) = inl e ->
  e = UnicodeDecodeError.
Proof.
  destruct l as [| m ms]; cbn [getitem0 ebind try_except is_IndexError].
  - discriminate.
  - destruct (decode_utf8 m) as [e' | s] eqn:Ed; cbn [ebind try_except].
    + apply decode_utf8_error in Ed. subst e'. cbn. congruence.
    + discriminate.
Qed.

Lemma decode_query_raises (detect : bytes -> option str)
    (codecs : codec_registry) (query : bytes) (e : exn) :
  QueryEvent._decode_query detect codecs query = inl e -> e = LookupError.
Proof.
  unfold QueryEvent._decode_query, decode_utf8, bytes_decode.
  destruct query as [| b0 rest]; [discriminate |].
  destruct (valid_utf8 (b0 :: rest)); cbn [ebind try_except is_UnicodeError];
    [discriminate |].
  destruct (detect (b0 :: rest)) as [name |];
    cbn [ebind try_except is_TypeError_or_UnicodeError]; [| discriminate].
  destruct (codecs name) as [decoder |];
    cbn [ebind try_except is_TypeError_or_UnicodeError]; [| congruence].
  destruct (decoder (b0 :: rest));
    cbn [ebind try_except is_TypeError_or_UnicodeError]; discriminate.
Qed.

(** Follow a failed run to the operation that raised. *)
Ltac escaped E :=
  cbv [bind ret attr BinLogEvent.__init__ read_uint8 read_uint16 read_uint32
       advance] in E;
  repeat match type of E with
  | context [match read ?n ?q with _ => _ end] =>
      let Hr := fresh "Hr" in
      destruct (read n q) as [? | [? ?]] eqn:Hr;
      [ apply read_inl in Hr; inversion E; subst; auto | ]
  | context [match lift ?r ?q with _ => _ end] =>
      let Hl := fresh "Hl" in
      destruct (lift r q) as [? | [? ?]] eqn:Hl;
      [ apply lift_inl in Hl;
        first [ apply decode_utf8_error in Hl
              | apply rotate_name_raises in Hl
              | apply decode_query_raises in Hl ];
        inversion E; subst; auto | ]
  | context [if ?b then _ else _] => destruct b
  end;
  try discriminate E.

(** X10.  Of the exceptions that the code meets, only three can leave a
    constructor, and which ones depends on the class: a short read from
    every class but StopEvent, which never fails; a UTF-8 decoding error
    from RotateEvent, FormatDescriptionEvent and HeartbeatLogEvent only; a
    codec lookup error from QueryEvent only.  The TypeError and the
    IndexError that the code provokes never leave it. *)
Theorem exceptions_by_class
    (rt : runtime) (c : event_class) (es : Z) (tm ctl : object_ref)
    (kw : kwargs) (p : Packet.t) (e : exn) :
  construct rt c es tm ctl kw p = inl e ->
  match c with
  | StopEvent_class => False
  | RotateEvent_class | FormatDescriptionEvent_class
  | HeartbeatLogEvent_class =>
      e = TruncatedPacket \/ e = UnicodeDecodeError
  | QueryEvent_class => e = TruncatedPacket \/ e = LookupError
  | GtidEvent_class | XidEvent_class | BeginLoadQueryEvent_class
  | ExecuteLoadQueryEvent_class | IntvarEvent_class
  | NotImplementedEvent_class => e = TruncatedPacket
  end.
Proof.
  intros E. destruct c; unfold construct in E.
  - unfold GtidEvent.__init__ in E. escaped E.
  - unfold RotateEvent.__init__ in E. escaped E.
  - unfold FormatDescriptionEvent.__init__ in E. escaped E.
  - escaped E.
  - unfold XidEvent.__init__ in E. escaped E.
  - unfold HeartbeatLogEvent.__init__ in E. escaped E.
  - unfold QueryEvent.__init__ in E. escaped E.
  - unfold BeginLoadQueryEvent.__init__ in E. escaped E.
  - unfold ExecuteLoadQueryEvent.__init__ in E. escaped E.
  - unfold IntvarEvent.__init__ in E. escaped E.
  - unfold NotImplementedEvent.__init__ in E. escaped E.
Qed.

Lemma exceptions_by_class_witness :
  UnicodeDecodeError = TruncatedPacket \/ UnicodeDecodeError = UnicodeDecodeError.
Proof.
  exact (exceptions_by_class sample_runtime HeartbeatLogEvent_class 1 0 0
           default_kwargs (packet_of [xff] 20) UnicodeDecodeError eq_refl).
Defined.

(** ** Events whose size is the declared one *)

Lemma not_implemented_decode (es : Z) (tm ctl : object_ref) (kw : kwargs)
    (p : Packet.t) :
  0 <= es <= Z.of_nat (List.length (Packet.buffer p)) ->
  NotImplementedEvent.__init__ es tm ctl kw p
  = inr (BinLogEvent.mk tm (Packet.event_type p) (Packet.timestamp p) es ctl
           (fail_on_table_metadata_unavailable kw) true true,
         Packet.consume (Z.to_nat es) p).
Proof.
  intros H. unfold NotImplementedEvent.__init__, advance.
  unfold bind at 1. rewrite base_init.
  unfold bind at 1. unfold bind at 1. rewrite read_ok by lia. reflexivity.
Qed.

Lemma begin_load_query_decode (es : Z) (tm ctl : object_ref) (kw : kwargs)
    (p : Packet.t) :
  4 <= es <= Z.of_nat (List.length (Packet.buffer p)) ->
  BeginLoadQueryEvent.__init__ es tm ctl kw p
  = inr (BeginLoadQueryEvent.mk
           (BinLogEvent.mk tm (Packet.event_type p) (Packet.timestamp p) es ctl
              (fail_on_table_metadata_unavailable kw) true true)
           (unpack_le (firstn 4 (Packet.buffer p)))
           (firstn (Z.to_nat (es - 4)) (skipn 4 (Packet.buffer p))),
         Packet.consume (Z.to_nat es) p).
Proof.
  intros H. unfold BeginLoadQueryEvent.__init__, read_uint32.
  start_run p. run_uint.
  unfold bind at 1. rewrite read_after by lia. unfold ret.
  replace (4 + Z.to_nat (es - 4))%nat with (Z.to_nat es) by lia.
  reflexivity.
Qed.

Lemma heartbeat_decode (es : Z) (tm ctl : object_ref) (kw : kwargs)
    (p : Packet.t) :
  0 <= es <= Z.of_nat (List.length (Packet.buffer p)) ->
  HeartbeatLogEvent.__init__ es tm ctl kw p
  = match decode_utf8 (firstn (Z.to_nat es) (Packet.buffer p)) with
    | inr s =>
        inr (HeartbeatLogEvent.mk
               (BinLogEvent.mk tm (Packet.event_type p) (Packet.timestamp p)
                  es ctl (fail_on_table_metadata_unavailable kw) true true)
               s,
             Packet.consume (Z.to_nat es) p)
    | inl e => inl e
    end.
Proof.
  intros H. unfold HeartbeatLogEvent.__init__.
  unfold bind at 1. rewrite base_init.
  unfold bind at 1. rewrite read_ok by lia.
  unfold bind at 1, lift.
  destruct (decode_utf8 _); reflexivity.
Qed.



(** ** Consecutive decodes *)

(** X12.  Two constructions, one after the other on the same packet, consume the
    sum of what each consumes; the second starts where the first stopped,
    the bytes beyond stay as they were, and the header fields of the packet
    are never changed, so both events carry the same type and timestamp. *)
Theorem consecutive_decodes
    (rt : runtime) (c1 c2 : event_class) (es1 es2 : Z)
    (tm1 ctl1 tm2 ctl2 : object_ref) (kw1 kw2 : kwargs)
    (p p1 p2 : Packet.t) (ev1 ev2 : event) :
  construct rt c1 es1 tm1 ctl1 kw1 p = inr (ev1, p1) ->
  construct rt c2 es2 tm2 ctl2 kw2 p1 = inr (ev2, p2) ->
  let n1 := bytes_consumed rt ev1 p in
  let n2 := bytes_consumed rt ev2 p1 in
  0 <= n1 /\ 0 <= n2
  /\ Packet.read_bytes p2 = Packet.read_bytes p + n1 + n2
  /\ Packet.buffer p1 = skipn (Z.to_nat n1) (Packet.buffer p)
  /\ Packet.buffer p2 = skipn (Z.to_nat (n1 + n2)) (Packet.buffer p)
  /\ Packet.buffer p
     = firstn (Z.to_nat (n1 + n2)) (Packet.buffer p) ++ Packet.buffer p2
  /\ (Packet.event_type p2, Packet.timestamp p2, Packet.log_pos p2,
      Packet.event_size p2)
     = (Packet.event_type p, Packet.timestamp p, Packet.log_pos p,
        Packet.event_size p)
  /\ BinLogEvent.event_type (base ev2) = BinLogEvent.event_type (base ev1)
  /\ BinLogEvent.timestamp (base ev2) = BinLogEvent.timestamp (base ev1).
Proof.
  intros H1 H2 n1 n2.
  apply construct_inr in H1. destruct H1 as (_ & Hb1 & Hn1 & Hp1).
  apply construct_inr in H2. destruct H2 as (_ & Hb2 & Hn2 & Hp2).
  fold n1 in Hn1, Hp1. fold n2 in Hn2, Hp2.
  assert (Hp : p2 = Packet.consume (Z.to_nat (n1 + n2)) p).
  { rewrite Hp2, Hp1, consume_consume. f_equal. lia. }
  repeat split; auto.
  - rewrite Hp, read_bytes_consume. lia.
  - rewrite Hp1. reflexivity.
  - rewrite Hp. reflexivity.
  - rewrite Hp, buffer_consume. symmetry. apply firstn_skipn.
  - rewrite Hp. reflexivity.
  - rewrite Hb1, Hb2, Hp1. reflexivity.
  - rewrite Hb1, Hb2, Hp1. reflexivity.
Qed.

Lemma consecutive_decodes_witness :
  exists ev1 p1 ev2 p2,
    construct sample_runtime GtidEvent_class 25 0 0 default_kwargs
      (packet_of (gtid_body ++ query_body (bytes_of "BEGIN")) 44)
    = inr (ev1, p1)
    /\ construct sample_runtime QueryEvent_class 19 0 0 default_kwargs p1
       = inr (ev2, p2)
    /\ Packet.read_bytes p2 = 0 + 25 + 19
    /\ Packet.buffer p2 = [].
Proof.
  eexists. eexists. eexists. eexists.
  split; [vm_compute; reflexivity |].
  split; [vm_compute; reflexivity |].
  split; [| reflexivity].
  eapply (proj1 (proj2 (proj2
            (consecutive_decodes sample_runtime GtidEvent_class
               QueryEvent_class 25 19 0 0 0 0 default_kwargs default_kwargs
               (packet_of (gtid_body ++ query_body (bytes_of "BEGIN")) 44)
               _ _ _ _ ltac:(vm_compute; reflexivity)
               ltac:(vm_compute; reflexivity))))).
Defined.

(** ** GtidEvent: the text determines the event *)

Lemma hex_value_digit (n : Z) : 0 <= n < 16 -> hex_value (hex_digit n) = n.
Proof.
  intros H. rewrite <- (Z2Nat.id n) by lia.
  assert (Hm : (Z.to_nat n < 16)%nat) by lia.
  revert Hm. generalize (Z.to_nat n) as m. intros m Hm.
  do 16 (destruct m as [| m]; [reflexivity |]). lia.
Qed.

Lemma byte_value_inj (a b : byte) : byte_value a = byte_value b -> a = b.
Proof.
  unfold byte_value. intros H. apply N2Z.inj in H.
  pose proof (Byte.of_to_N a) as Ha. rewrite H, Byte.of_to_N in Ha.
  congruence.
Qed.

Lemma hex_pair_inj (a b : byte) :
  hex_digit (byte_value a / 16) = hex_digit (byte_value b / 16) ->
  hex_digit (byte_value a mod 16) = hex_digit (byte_value b mod 16) ->
  a = b.
Proof.
  intros Hq Hr. pose proof (byte_value_range a). pose proof (byte_value_range b).
  apply (f_equal hex_value) in Hq, Hr.
  rewrite !hex_value_digit in Hq, Hr;
    try (apply Z.mod_pos_bound; lia);
    try (split; [apply Z.div_pos; lia | apply Z.div_lt_upper_bound; lia]).
  apply byte_value_inj.
  rewrite (Z.div_mod (byte_value a) 16), (Z.div_mod (byte_value b) 16) by lia.
  congruence.
Qed.

Lemma hexlify_inj (a b : bytes) : hexlify a = hexlify b -> a = b.
Proof.
  revert b. induction a as [| x a IH]; intros [| y b] H;
    try discriminate; [reflexivity |].
  cbn [hexlify] in H. injection H as Hq Hr Ht.
  f_equal; [now apply hex_pair_inj | now apply IH].
Qed.

Lemma format_d_inj (m n : Z) : format_d m = format_d n -> m = n.
Proof.
  intros H. pose proof (format_d_parses m) as Hm.
  rewrite H, format_d_parses in Hm. congruence.
Qed.

Lemma append_length (a b : str) :
  String.length (a ++ b)%string = (String.length a + String.length b)%nat.
Proof.
  induction a as [| c a IH]; [reflexivity |]. cbn. now rewrite IH.
Qed.

Lemma append_inj_l (a b c : str) : (a ++ c = b ++ c)%string -> a = b.
Proof.
  revert b. induction a as [| x a IH]; intros [| y b] H.
  - reflexivity.
  - apply (f_equal String.length) in H. cbn in H. rewrite append_length in H.
    lia.
  - apply (f_equal String.length) in H. cbn in H. rewrite append_length in H.
    lia.
  - cbn in H. injection H as -> H. f_equal. now apply IH.
Qed.

Ltac sixteen_bytes s H :=
  do 16 (destruct s as [| ? s]; [discriminate H |]);
  destruct s; [| discriminate H].

(** X13.  Two GtidEvents with 16-byte source ids that have the same [gtid] text,
    or the same [__repr__], have the same source id and the same
    transaction number. *)
Theorem gtid_text_determines_event (e1 e2 : GtidEvent.t) :
  List.length (GtidEvent.sid e1) = 16%nat ->
  List.length (GtidEvent.sid e2) = 16%nat ->
  GtidEvent.gtid e1 = GtidEvent.gtid e2
  \/ GtidEvent.__repr__ e1 = GtidEvent.__repr__ e2 ->
  GtidEvent.sid e1 = GtidEvent.sid e2 /\ GtidEvent.gno e1 = GtidEvent.gno e2.
Proof.
  intros H1 H2 H.
  assert (Hg : GtidEvent.gtid e1 = GtidEvent.gtid e2).
  { destruct H as [H | H]; [exact H |].
    unfold GtidEvent.__repr__ in H. cbn [append] in H.
    repeat (injection H as H).
    now apply append_inj_l in H. }
  clear H. destruct e1 as [b1 c1 s1 g1], e2 as [b2 c2 s2 g2].
  cbn [GtidEvent.sid GtidEvent.gno] in *.
  sixteen_bytes s1 H1. sixteen_bytes s2 H2.
  cbv [GtidEvent.gtid GtidEvent.sid GtidEvent.gno hexlify str_to str_slice
       str_from substring append Nat.sub] in Hg.
  repeat match type of Hg with
  | String _ _ = String _ _ => injection Hg as ? Hg
  end.
  split.
  - apply hexlify_inj. cbn [hexlify]. congruence.
  - now apply format_d_inj.
Qed.

Lemma gtid_text_determines_event_witness :
  GtidEvent.sid (GtidEvent.mk (BinLogEvent.mk 0 0 0 25 0 false true true)
                   true sample_sid 23)
  = GtidEvent.sid (GtidEvent.mk (BinLogEvent.mk 1 1 1 42 1 true true true)
                     false sample_sid 23)
  /\ 23 = 23.
Proof.
  refine (gtid_text_determines_event
            (GtidEvent.mk (BinLogEvent.mk 0 0 0 25 0 false true true)
               true sample_sid 23)
            (GtidEvent.mk (BinLogEvent.mk 1 1 1 42 1 true true true)
               false sample_sid 23) _ _ _).
  - reflexivity.
  - reflexivity.
  - left. reflexivity.
Defined.

(** ** The dump of a freshly decoded event *)

(** X14.  When an event of a class other than RotateEvent and
    FormatDescriptionEvent is constructed from a packet that has consumed
    nothing yet and is dumped right away, the first five lines give the
    class name, the timestamp and the log position of the packet, the
    declared size, and as read bytes the count that the class consumes. *)
Theorem dump_after_construct
    (rt : runtime) (c : event_class) (es : Z) (tm ctl : object_ref)
    (kw : kwargs) (p : Packet.t) (ev : event) (p' : Packet.t) :
  construct rt c es tm ctl kw p = inr (ev, p') ->
  Packet.read_bytes p = 0 ->
  c <> RotateEvent_class ->
  c <> FormatDescriptionEvent_class ->
  firstn 5 (dump rt ev p')
  = [ ("=== " ++ class_name ev ++ " ===")%string;
      ("Date: " ++ isoformat rt (Packet.timestamp p))%string;
      ("Log position: " ++ format_d (Packet.log_pos p))%string;
      ("Event size: " ++ format_d es)%string;
      ("Read bytes: " ++ format_d (bytes_consumed rt ev p))%string ].
Proof.
  intros H H0 Hr Hf. apply construct_inr in H.
  destruct H as (Hc & Hb & Hn & Hp).
  assert (Hrb : Packet.read_bytes p' = bytes_consumed rt ev p).
  { rewrite Hp, read_bytes_consume. lia. }
  assert (Hlp : Packet.log_pos p' = Packet.log_pos p) by (now rewrite Hp).
  destruct ev; cbn [class_of] in Hc; try congruence;
    unfold dump, BinLogEvent.dump; cbn [firstn app];
    rewrite Hb, Hrb, Hlp; reflexivity.
Qed.

Lemma dump_after_construct_witness :
  exists ev p',
    construct sample_runtime GtidEvent_class 25 0 0 default_kwargs
      (packet_of gtid_body 44) = inr (ev, p')
    /\ dump sample_runtime ev p'
       = [ "=== GtidEvent ==="; "Date: 1970-01-01T00:00:00";
           "Log position: 0"; "Event size: 25"; "Read bytes: 25";
           "Commit: True";
           "GTID_NEXT: 3e11fa47-71ca-11e1-9e33-c80aa9429562:23";
           EmptyString ]
    /\ firstn 5 (dump sample_runtime ev p')
       = [ "=== GtidEvent ==="; "Date: 1970-01-01T00:00:00";
           "Log position: 0"; "Event size: 25"; "Read bytes: 25" ].
Proof.
  eexists. eexists. split; [vm_compute; reflexivity |].
  split; [reflexivity |].
  apply (dump_after_construct sample_runtime GtidEvent_class 25 0 0
           default_kwargs (packet_of gtid_body 44)).
  - vm_compute. reflexivity.
  - reflexivity.
  - discriminate.
  - discriminate.
Defined.

(** ** FormatDescriptionEvent: where the algorithm byte lies *)

Lemma unpack_b_one (a : bytes) :
  List.length a = 1%nat -> unpack_b a = 1 -> a = [x01].
Proof.
  destruct a as [| b [| ? ?]]; try discriminate. intros _.
  unfold unpack_b. cbn [unpack_le]. pose proof (byte_value_range b) as Hb.
  destruct (byte_value b + 256 * 0 <? 128) eqn:E; intros H.
  - f_equal. apply byte_value_inj. change (byte_value x01) with 1. lia.
  - lia.
Qed.

Lemma firstn_1_nth_error {A} (l : list A) (k : nat) (x : A) :
  firstn 1 (skipn k l) = [x] -> nth_error l k = Some x.
Proof.
  revert l. induction k as [| k IH]; intros [| y l] H; try discriminate.
  - cbn in *. congruence.
  - cbn [skipn] in H. cbn [nth_error]. now apply IH.
Qed.

(** X15.  A FormatDescriptionEvent is decoded with [has_checksum] set only from a
    packet whose declared size is at least 76, whose body reaches to 4 bytes
    before that size, and whose body byte at offset event_size - 24 (the
    fifth from the end of the declared body) is exactly 0x01. *)
Theorem has_checksum_algorithm_byte
    (policy : str -> bool) (es : Z) (tm ctl : object_ref) (kw : kwargs)
    (p : Packet.t) (e : FormatDescriptionEvent.t) (p' : Packet.t) :
  FormatDescriptionEvent.__init__ policy es tm ctl kw p = inr (e, p') ->
  FormatDescriptionEvent.has_checksum e = true ->
  76 <= Packet.event_size p
  /\ Packet.event_size p - 23 <= Z.of_nat (List.length (Packet.buffer p))
  /\ nth_error (Packet.buffer p) (Z.to_nat (Packet.event_size p - 24))
     = Some x01.
Proof.
  intros H Hc. apply format_description_inr in H.
  destruct H as (_ & Hlen & H).
  destruct (policy (FormatDescriptionEvent.server_version e)).
  - destruct H as (H0 & H1 & Hh & _). rewrite Hc in Hh.
    symmetry in Hh. apply Z.eqb_eq in Hh. unfold skipped in *.
    repeat split; try lia.
    apply firstn_1_nth_error.
    replace (Z.to_nat (Packet.event_size p - 24))
      with (2 + 50 + Z.to_nat (Packet.event_size p - 19 - 2 - 50 - 5))%nat
      by lia.
    apply unpack_b_one; [| exact Hh].
    unfold algorithm_byte, skipped. rewrite length_firstn, length_skipn. lia.
  - destruct H as (Hf & _). congruence.
Qed.

Lemma has_checksum_algorithm_byte_witness :
  76 <= 99
  /\ 99 - 23 <= Z.of_nat (List.length (fde_body "5.6.24-log" x01))
  /\ nth_error (fde_body "5.6.24-log" x01) (Z.to_nat (99 - 24)) = Some x01.
Proof.
  unshelve eapply (has_checksum_algorithm_byte sample_policy 80 0 0
                     default_kwargs (packet_of (fde_body "5.6.24-log" x01) 99)
                     _ _ _ _);
    [ | | vm_compute; reflexivity | reflexivity ].
Defined.

(** ** A decode looks only at the bytes it consumes *)

Lemma agree_length (n : nat) (p q : Packet.t) :
  firstn n (Packet.buffer q) = firstn n (Packet.buffer p) ->
  (n <= List.length (Packet.buffer p))%nat ->
  (n <= List.length (Packet.buffer q))%nat.
Proof.
  intros E H. apply (same_prefix_length n (Packet.buffer p)); auto.
Qed.

Ltac inner_init H e p1 Hi :=
  unfold construct in H; apply bind_inr in H;
  destruct H as (e & p1 & Hi & H); unfold ret in H;
  injection H as <- <-.

Lemma local_gtid (es : Z) (tm ctl : object_ref) (kw : kwargs)
    (p q : Packet.t) (e : GtidEvent.t) (p' : Packet.t) :
  GtidEvent.__init__ es tm ctl kw p = inr (e, p') ->
  Packet.event_type q = Packet.event_type p ->
  Packet.timestamp q = Packet.timestamp p ->
  firstn 25 (Packet.buffer q) = firstn 25 (Packet.buffer p) ->
  GtidEvent.__init__ es tm ctl kw q = inr (e, Packet.consume 25 q).
Proof.
  intros H Ht Hs E.
  assert (Hb : (25 <= List.length (Packet.buffer p))%nat).
  { pose proof H as H'. unfold GtidEvent.__init__ in H'. run_bounds H'. lia. }
  rewrite (gtid_decode _ _ _ _ _ Hb) in H. injection H as <- <-.
  rewrite (gtid_decode _ _ _ _ _ (agree_length _ _ _ E Hb)).
  rewrite Ht, Hs.
  rewrite (slice_agree 0 1 25 _ _ ltac:(lia) E).
  rewrite (slice_agree 1 16 25 _ _ ltac:(lia) E).
  rewrite (slice_agree 17 8 25 _ _ ltac:(lia) E).
  reflexivity.
Qed.

Lemma local_xid (es : Z) (tm ctl : object_ref) (kw : kwargs)
    (p q : Packet.t) (e : XidEvent.t) (p' : Packet.t) :
  XidEvent.__init__ es tm ctl kw p = inr (e, p') ->
  Packet.event_type q = Packet.event_type p ->
  Packet.timestamp q = Packet.timestamp p ->
  firstn 8 (Packet.buffer q) = firstn 8 (Packet.buffer p) ->
  XidEvent.__init__ es tm ctl kw q = inr (e, Packet.consume 8 q).
Proof.
  intros H Ht Hs E.
  assert (Hb : (8 <= List.length (Packet.buffer p))%nat).
  { pose proof H as H'. unfold XidEvent.__init__ in H'. run_bounds H'. lia. }
  rewrite (xid_decode _ _ _ _ _ Hb) in H. injection H as <- <-.
  rewrite (xid_decode _ _ _ _ _ (agree_length _ _ _ E Hb)).
  rewrite Ht, Hs.
  rewrite (slice_agree 0 8 8 _ _ ltac:(lia) E).
  reflexivity.
Qed.

Lemma local_intvar (es : Z) (tm ctl : object_ref) (kw : kwargs)
    (p q : Packet.t) (e : IntvarEvent.t) (p' : Packet.t) :
  IntvarEvent.__init__ es tm ctl kw p = inr (e, p') ->
  Packet.event_type q = Packet.event_type p ->
  Packet.timestamp q = Packet.timestamp p ->
  firstn 5 (Packet.buffer q) = firstn 5 (Packet.buffer p) ->
  IntvarEvent.__init__ es tm ctl kw q = inr (e, Packet.consume 5 q).
Proof.
  intros H Ht Hs E.
  assert (Hb : (5 <= List.length (Packet.buffer p))%nat).
  { pose proof H as H'. unfold IntvarEvent.__init__ in H'. run_bounds H'. lia. }
  rewrite (intvar_decode _ _ _ _ _ Hb) in H. injection H as <- <-.
  rewrite (intvar_decode _ _ _ _ _ (agree_length _ _ _ E Hb)).
  rewrite Ht, Hs.
  rewrite (slice_agree 0 1 5 _ _ ltac:(lia) E).
  rewrite (slice_agree 1 4 5 _ _ ltac:(lia) E).
  reflexivity.
Qed.

Lemma local_execute_load_query (es : Z) (tm ctl : object_ref) (kw : kwargs)
    (p q : Packet.t) (e : ExecuteLoadQueryEvent.t) (p' : Packet.t) :
  ExecuteLoadQueryEvent.__init__ es tm ctl kw p = inr (e, p') ->
  Packet.event_type q = Packet.event_type p ->
  Packet.timestamp q = Packet.timestamp p ->
  firstn 26 (Packet.buffer q) = firstn 26 (Packet.buffer p) ->
  ExecuteLoadQueryEvent.__init__ es tm ctl kw q = inr (e, Packet.consume 26 q).
Proof.
  intros H Ht Hs E.
  assert (Hb : (26 <= List.length (Packet.buffer p))%nat).
  { pose proof H as H'. unfold ExecuteLoadQueryEvent.__init__ in H'.
    run_bounds H'. lia. }
  rewrite (execute_load_query_decode _ _ _ _ _ Hb) in H. cbv zeta in H.
  injection H as <- <-.
  rewrite (execute_load_query_decode _ _ _ _ _ (agree_length _ _ _ E Hb)).
  cbv zeta. rewrite Ht, Hs.
  rewrite (slice_agree 0 4 26 _ _ ltac:(lia) E).
  rewrite (slice_agree 4 4 26 _ _ ltac:(lia) E).
  rewrite (slice_agree 8 1 26 _ _ ltac:(lia) E).
  rewrite (slice_agree 9 2 26 _ _ ltac:(lia) E).
  rewrite (slice_agree 11 2 26 _ _ ltac:(lia) E).
  rewrite (slice_agree 13 4 26 _ _ ltac:(lia) E).
  rewrite (slice_agree 17 4 26 _ _ ltac:(lia) E).
  rewrite (slice_agree 21 4 26 _ _ ltac:(lia) E).
  rewrite (slice_agree 25 1 26 _ _ ltac:(lia) E).
  reflexivity.
Qed.

Lemma firstn_whole_prefix {A} (n : nat) (l1 l2 : list A) :
  firstn n l1 = firstn n l2 -> firstn n (skipn 0 l1) = firstn n (skipn 0 l2).
Proof. auto. Qed.

Lemma local_not_implemented (es : Z) (tm ctl : object_ref) (kw : kwargs)
    (p q : Packet.t) (e : BinLogEvent.t) (p' : Packet.t) :
  NotImplementedEvent.__init__ es tm ctl kw p = inr (e, p') ->
  Packet.event_type q = Packet.event_type p ->
  Packet.timestamp q = Packet.timestamp p ->
  firstn (Z.to_nat es) (Packet.buffer q)
  = firstn (Z.to_nat es) (Packet.buffer p) ->
  NotImplementedEvent.__init__ es tm ctl kw q
  = inr (e, Packet.consume (Z.to_nat es) q).
Proof.
  intros H Ht Hs E.
  assert (Hb : 0 <= es <= Z.of_nat (List.length (Packet.buffer p))).
  { pose proof H as H'. unfold NotImplementedEvent.__init__ in H'.
    run_bounds H'. lia. }
  rewrite (not_implemented_decode _ _ _ _ _ Hb) in H. injection H as <- <-.
  pose proof (agree_length _ _ _ E ltac:(lia)) as Hq.
  rewrite not_implemented_decode by lia.
  rewrite Ht, Hs. reflexivity.
Qed.

Lemma local_begin_load_query (es : Z) (tm ctl : object_ref) (kw : kwargs)
    (p q : Packet.t) (e : BeginLoadQueryEvent.t) (p' : Packet.t) :
  BeginLoadQueryEvent.__init__ es tm ctl kw p = inr (e, p') ->
  Packet.event_type q = Packet.event_type p ->
  Packet.timestamp q = Packet.timestamp p ->
  firstn (Z.to_nat es) (Packet.buffer q)
  = firstn (Z.to_nat es) (Packet.buffer p) ->
  BeginLoadQueryEvent.__init__ es tm ctl kw q
  = inr (e, Packet.consume (Z.to_nat es) q).
Proof.
  intros H Ht Hs E.
  assert (Hb : 4 <= es <= Z.of_nat (List.length (Packet.buffer p))).
  { pose proof H as H'. unfold BeginLoadQueryEvent.__init__ in H'.
    run_bounds H'. lia. }
  rewrite (begin_load_query_decode _ _ _ _ _ Hb) in H. injection H as <- <-.
  pose proof (agree_length _ _ _ E ltac:(lia)) as Hq.
  rewrite begin_load_query_decode by lia.
  rewrite Ht, Hs.
  rewrite (slice_agree 4 (Z.to_nat (es - 4)) (Z.to_nat es) _ _ ltac:(lia) E).
  change (firstn 4 (Packet.buffer q)) with (firstn 4 (skipn 0 (Packet.buffer q))).
  rewrite (slice_agree 0 4 (Z.to_nat es) _ _ ltac:(lia) E).
  reflexivity.
Qed.

Lemma local_heartbeat (es : Z) (tm ctl : object_ref) (kw : kwargs)
    (p q : Packet.t) (e : HeartbeatLogEvent.t) (p' : Packet.t) :
  HeartbeatLogEvent.__init__ es tm ctl kw p = inr (e, p') ->
  Packet.event_type q = Packet.event_type p ->
  Packet.timestamp q = Packet.timestamp p ->
  firstn (Z.to_nat es) (Packet.buffer q)
  = firstn (Z.to_nat es) (Packet.buffer p) ->
  HeartbeatLogEvent.__init__ es tm ctl kw q
  = inr (e, Packet.consume (Z.to_nat es) q).
Proof.
  intros H Ht Hs E.
  assert (Hb : 0 <= es <= Z.of_nat (List.length (Packet.buffer p))).
  { pose proof H as H'. unfold HeartbeatLogEvent.__init__ in H'.
    run_bounds H'. lia. }
  rewrite (heartbeat_decode _ _ _ _ _ Hb) in H.
  pose proof (agree_length _ _ _ E ltac:(lia)) as Hq.
  rewrite heartbeat_decode by lia. rewrite E, Ht, Hs.
  destruct (decode_utf8 _); [discriminate |].
  injection H as <- <-. reflexivity.
Qed.

Lemma local_rotate (es : Z) (tm ctl : object_ref) (kw : kwargs)
    (p q : Packet.t) (e : RotateEvent.t) (p' : Packet.t) :
  RotateEvent.__init__ es tm ctl kw p = inr (e, p') ->
  Packet.event_type q = Packet.event_type p ->
  Packet.timestamp q = Packet.timestamp p ->
  firstn (Z.to_nat es) (Packet.buffer q)
  = firstn (Z.to_nat es) (Packet.buffer p) ->
  RotateEvent.__init__ es tm ctl kw q
  = inr (e, Packet.consume (Z.to_nat es) q).
Proof.
  intros H Ht Hs E.
  pose proof (rotate_inr_bounds _ _ _ _ _ _ _ H) as Hb.
  rewrite (rotate_decode _ _ _ _ _ Hb) in H.
  pose proof (agree_length _ _ _ E ltac:(lia)) as Hq.
  rewrite rotate_decode by lia. rewrite Ht, Hs.
  unfold trailer_of in *.
  rewrite (slice_agree 8 (Z.to_nat (es - 8)) (Z.to_nat es) _ _ ltac:(lia) E).
  change (firstn 8 (Packet.buffer q)) with (firstn 8 (skipn 0 (Packet.buffer q))).
  rewrite (slice_agree 0 8 (Z.to_nat es) _ _ ltac:(lia) E).
  change (firstn 8 (skipn 0 (Packet.buffer p))) with (firstn 8 (Packet.buffer p)).
  destruct (findall _) as [| m0 ms].
  - injection H as <- <-. reflexivity.
  - destruct (decode_utf8 m0); [discriminate |].
    injection H as <- <-. reflexivity.
Qed.

Lemma local_format_description (policy : str -> bool) (es : Z)
    (tm ctl : object_ref) (kw : kwargs)
    (p q : Packet.t) (e : FormatDescriptionEvent.t) (p' : Packet.t) :
  FormatDescriptionEvent.__init__ policy es tm ctl kw p = inr (e, p') ->
  Packet.event_type q = Packet.event_type p ->
  Packet.timestamp q = Packet.timestamp p ->
  Packet.event_size q = Packet.event_size p ->
  let n := Z.to_nat
             (if policy (FormatDescriptionEvent.server_version e)
              then Packet.event_size p - 19 - 4 else 52) in
  firstn n (Packet.buffer q) = firstn n (Packet.buffer p) ->
  FormatDescriptionEvent.__init__ policy es tm ctl kw q
  = inr (e, Packet.consume n q).
Proof.
  intros H Ht Hs Hz n E. subst n.
  pose proof (format_description_inr _ _ _ _ _ _ _ _ H) as (Hsv & Hlen & Hc).
  remember (FormatDescriptionEvent.server_version e) as sv eqn:Esv.
  assert (Hskip : policy sv = true ->
            0 <= skipped p
            /\ (2 + 50 + Z.to_nat (skipped p) + 1
                <= List.length (Packet.buffer p))%nat).
  { intros Hp. rewrite Hp in Hc. tauto. }
  rewrite (format_description_decode _ _ _ _ _ _ sv Hlen Hsv Hskip) in H.
  assert (Hk : skipped q = skipped p) by (unfold skipped; now rewrite Hz).
  assert (Hn : (if policy sv then Packet.event_size p - 19 - 4 else 52)
               = Z.of_nat (if policy sv
                           then 2 + 50 + Z.to_nat (skipped p) + 1 else 52)%nat).
  { destruct (policy sv) eqn:Hp; [| reflexivity].
    destruct (Hskip eq_refl) as (H0 & _). unfold skipped in *. lia. }
  rewrite Hn, Nat2Z.id in E |- *.
  set (n := (if policy sv then 2 + 50 + Z.to_nat (skipped p) + 1 else 52)%nat)
    in *.
  assert (Hm : (52 <= n)%nat) by (subst n; destruct (policy sv); lia).
  assert (Hmp : (n <= List.length (Packet.buffer p))%nat).
  { subst n. destruct (policy sv) eqn:Hp; [| lia].
    now destruct (Hskip eq_refl). }
  pose proof (agree_length _ _ _ E Hmp) as Hq.
  assert (Hvq : version_bytes q = version_bytes p).
  { unfold version_bytes. now rewrite (slice_agree 2 50 n _ _ ltac:(lia) E). }
  rewrite (format_description_decode policy es tm ctl kw q sv).
  - injection H as He _. rewrite <- He. rewrite Ht, Hs, Hk.
    rewrite (slice_agree 0 2 n _ _ ltac:(lia) E).
    subst n. destruct (policy sv) eqn:Hp; [| reflexivity].
    unfold algorithm_byte. rewrite Hk.
    rewrite (slice_agree (2 + 50 + Z.to_nat (skipped p)) 1
               (2 + 50 + Z.to_nat (skipped p) + 1) _ _ ltac:(lia) E).
    reflexivity.
  - lia.
  - now rewrite Hvq.
  - intros Hp. rewrite Hk. subst n. rewrite Hp in Hq.
    destruct (Hskip Hp). split; lia.
Qed.

Lemma inr_pair_inv {E A B} (a c : A) (b d : B) :
  @inr E (A * B) (a, b) = inr (c, d) -> a = c /\ b = d.
Proof.
  intros H. injection H as -> ->. auto.
Qed.

Lemma local_query (detect : bytes -> option str) (codecs : codec_registry)
    (es : Z) (tm ctl : object_ref) (kw : kwargs)
    (p q : Packet.t) (e : QueryEvent.t) (p' : Packet.t) :
  QueryEvent.__init__ detect codecs es tm ctl kw p = inr (e, p') ->
  Packet.event_type q = Packet.event_type p ->
  Packet.timestamp q = Packet.timestamp p ->
  firstn (Z.to_nat es) (Packet.buffer q)
  = firstn (Z.to_nat es) (Packet.buffer p) ->
  QueryEvent.__init__ detect codecs es tm ctl kw q
  = inr (e, Packet.consume (Z.to_nat es) q).
Proof.
  intros H Ht Hs E.
  pose proof (query_inr_fields _ _ _ _ _ _ _ _ H) as Hlen.
  pose proof (byte2int_nonneg (firstn 1 (skipn 8 (Packet.buffer p)))) as Hsl.
  pose proof (unpack_le_nonneg (firstn 2 (skipn 11 (Packet.buffer p)))) as Hsvl.
  fold (schema_length_of p) in Hsl. fold (status_vars_length_of p) in Hsvl.
  rewrite (query_decode_tail detect codecs es tm ctl kw p Hlen) in H.
  cbv zeta in H.
  set (svl := status_vars_length_of p) in *.
  set (sl := schema_length_of p) in *.
  apply bind_inr in H. destruct H as (text & p1 & Hr & H).
  apply read_inr in Hr. destruct Hr as (Hb & Htext & Hp1).
  rewrite buffer_consume, length_skipn in Hb.
  rewrite buffer_consume in Htext.
  apply bind_inr in H. destruct H as (query & p2 & Hd & H).
  apply lift_inr in Hd. destruct Hd as (Hd & ->).
  unfold ret in H. apply inr_pair_inv in H. destruct H as (He & Hp').
  assert (Hes : (Z.to_nat es <= List.length (Packet.buffer p))%nat) by lia.
  pose proof (agree_length _ _ _ E Hes) as Hq.
  assert (Hsvl_q : status_vars_length_of q = svl).
  { unfold status_vars_length_of, svl.
    now rewrite (slice_agree 11 2 (Z.to_nat es) _ _ ltac:(lia) E). }
  assert (Hsl_q : schema_length_of q = sl).
  { unfold schema_length_of, sl.
    now rewrite (slice_agree 8 1 (Z.to_nat es) _ _ ltac:(lia) E). }
  rewrite (query_decode_tail detect codecs es tm ctl kw q)
    by (rewrite Hsvl_q, Hsl_q; lia).
  cbv zeta. rewrite Hsvl_q, Hsl_q, Ht, Hs.
  unfold bind at 1. rewrite read_after by lia.
  rewrite (slice_agree (Z.to_nat (14 + svl + sl))
             (Z.to_nat (es - 13 - svl - sl - 1)) (Z.to_nat es) _ _
             ltac:(lia) E).
  rewrite <- Htext. unfold bind at 1. rewrite Hd. unfold lift, ret.
  rewrite (slice_agree 0 4 (Z.to_nat es) _ _ ltac:(lia) E).
  rewrite (slice_agree 4 4 (Z.to_nat es) _ _ ltac:(lia) E).
  rewrite (slice_agree 9 2 (Z.to_nat es) _ _ ltac:(lia) E).
  rewrite (slice_agree 13 (Z.to_nat svl) (Z.to_nat es) _ _ ltac:(lia) E).
  rewrite (slice_agree (13 + Z.to_nat svl) (Z.to_nat sl) (Z.to_nat es) _ _
             ltac:(lia) E).
  rewrite He. f_equal. f_equal. f_equal. lia.
Qed.

(** X16.  A construction looks only at the bytes it consumes and at the
    event type, timestamp and declared size in the packet's header: from any
    other packet with the same three header fields and the same first [n]
    bytes, [n] being what the first construction consumed, the same class
    constructs the very same event and consumes [n] bytes again, whatever
    follows those bytes and whatever the log position and the read count of
    the packet are. *)
Theorem construction_is_local
    (rt : runtime) (c : event_class) (es : Z) (tm ctl : object_ref)
    (kw : kwargs) (p q : Packet.t) (ev : event) (p' : Packet.t) :
  construct rt c es tm ctl kw p = inr (ev, p') ->
  Packet.event_type q = Packet.event_type p ->
  Packet.timestamp q = Packet.timestamp p ->
  Packet.event_size q = Packet.event_size p ->
  let n := Z.to_nat (bytes_consumed rt ev p) in
  firstn n (Packet.buffer q) = firstn n (Packet.buffer p) ->
  construct rt c es tm ctl kw q = inr (ev, Packet.consume n q).
Proof.
  intros H Ht Hs Hz n E. subst n.
  pose proof (construct_inr _ _ _ _ _ _ _ _ _ H) as (_ & Hb & _ & _).
  assert (Hes : BinLogEvent.event_size (base ev) = es) by (now rewrite Hb).
  clear Hb.
  destruct c; inner_init H e p1 Hi; cbn [bytes_consumed base] in *;
    unfold construct, bind at 1.
  - rewrite (local_gtid _ _ _ _ p q e p1 Hi Ht Hs E); reflexivity.
  - rewrite Hes in E |- *.
    rewrite (local_rotate _ _ _ _ p q e p1 Hi Ht Hs E); reflexivity.
  - rewrite (local_format_description _ _ _ _ _ p q e p1 Hi Ht Hs Hz E); reflexivity.
  - rewrite base_init in Hi |- *. injection Hi as <- <-.
    rewrite Ht, Hs. change (Z.to_nat 0) with 0%nat. rewrite consume_0. reflexivity.
  - rewrite (local_xid _ _ _ _ p q e p1 Hi Ht Hs E); reflexivity.
  - rewrite Hes in E |- *.
    rewrite (local_heartbeat _ _ _ _ p q e p1 Hi Ht Hs E); reflexivity.
  - rewrite Hes in E |- *.
    rewrite (local_query _ _ _ _ _ _ p q e p1 Hi Ht Hs E); reflexivity.
  - rewrite Hes in E |- *.
    rewrite (local_begin_load_query _ _ _ _ p q e p1 Hi Ht Hs E); reflexivity.
  - rewrite (local_execute_load_query _ _ _ _ p q e p1 Hi Ht Hs E); reflexivity.
  - rewrite (local_intvar _ _ _ _ p q e p1 Hi Ht Hs E); reflexivity.
  - rewrite Hes in E |- *.
    rewrite (local_not_implemented _ _ _ _ p q e p1 Hi Ht Hs E); reflexivity.
Qed.

Lemma construction_is_local_witness :
  exists ev p',
    construct sample_runtime ExecuteLoadQueryEvent_class 30 0 0 default_kwargs
      (packet_of execute_load_query_body 49) = inr (ev, p')
    /\ construct sample_runtime ExecuteLoadQueryEvent_class 30 0 0
         default_kwargs
         (Packet.mk (zeros 26 ++ bytes_of "other bytes") 7 0 0 99 49)
       = inr (ev, Packet.consume 26
                    (Packet.mk (zeros 26 ++ bytes_of "other bytes") 7 0 0 99 49)).
Proof.
  eexists. eexists. split; [vm_compute; reflexivity |].
  eapply (construction_is_local sample_runtime ExecuteLoadQueryEvent_class
            30 0 0 default_kwargs (packet_of execute_load_query_body 49)
            (Packet.mk (zeros 26 ++ bytes_of "other bytes") 7 0 0 99 49)).
  - vm_compute. reflexivity.
  - reflexivity.
  - reflexivity.
  - reflexivity.
  - reflexivity.
Defined.
